(** * privx-cli: the [roles] and [trusted-clients] command groups

    A shallow embedding of [cmd/roles.go] and [cmd/trustedclients.go].

    The commands are thin: they read flags into an options record, call
    the PrivX SDK, and print the result.  The SDK, [stdout] and
    [fmt.Println] are the program's only effects; they are modelled as
    calls to an arbitrary handler over an arbitrary service state, and
    every call is additionally recorded, in order, in a trace.  All
    statements below quantify over the handler and the initial state. *)

From Stdlib Require Import String Ascii List Bool Arith ZArith Lia.
Import ListNotations.
Local Open Scope string_scope.
Local Open Scope list_scope.

(** ** Go's [strings] package, restricted to what the commands use *)

Module strings.

(** [unicode.ToUpper] on the ASCII range: ['a'..'z'] is shifted to
    ['A'..'Z'], every other byte is kept.  Go strings are byte
    sequences; [strings.ToUpper] takes this byte-wise path whenever the
    input is pure ASCII, which is the only situation in which the
    commands call it (the call sits under [case "extender"] and
    [case "carrier"]). *)
Definition upper_byte (c : ascii) : ascii :=
  let n := nat_of_ascii c in
  if ((97 <=? n)%nat && (n <=? 122)%nat)%bool
  then ascii_of_nat (n - 32) else c.

Fixpoint ToUpper (s : string) : string :=
  match s with
  | EmptyString => EmptyString
  | String c r => String (upper_byte c) (ToUpper r)
  end.

(** [strings.Split(s, sep)] for a one-byte separator.  The result
    holds the pieces of [s] between the occurrences of [sep], in
    order; a string without [sep] is returned whole, and so is the
    empty string. *)
Fixpoint Split1 (s : string) (sep : ascii) : list string :=
  match s with
  | EmptyString => [EmptyString]
  | String c r =>
      if Ascii.eqb c sep then EmptyString :: Split1 r sep
      else match Split1 r sep with
           | piece :: pieces => String c piece :: pieces
           | [] => [String c EmptyString]
           end
  end.

(** The commands always split on [","]. *)
Definition Split (s : string) (sep : ascii) : list string := Split1 s sep.

(** Whether the byte [c] occurs in [s] ([strings.IndexByte(s, c) >= 0]);
    like [Join], used to state facts about [Split]. *)
Fixpoint ContainsByte (s : string) (c : ascii) : bool :=
  match s with
  | EmptyString => false
  | String b r => if Ascii.eqb b c then true else ContainsByte r c
  end.

(** [strings.Join] for a one-byte separator. *)
Fixpoint Join (elems : list string) (sep : ascii) : string :=
  match elems with
  | [] => EmptyString
  | [e] => e
  | e :: rest => e ++ String sep (Join rest sep)
  end.

End strings.


(** ** Errors and SDK data

    Go's [error] values.  [Errorf] is an error built locally by
    [fmt.Errorf]; [APIError] stands for whatever the SDK reports (an HTTP
    status and a message). *)

Inductive error : Type :=
| Errorf (msg : string)
| APIError (status : nat) (msg : string).

(** A Go pair [(T, error)]: the value when the error is [nil]. *)
Inductive result (T : Type) : Type :=
| Ok (v : T)
| Err (e : error).
Arguments Ok {T} v.
Arguments Err {T} e.

(** [privx-sdk-go/api/userstore]: the commands read nothing of a trusted
    client but its [Type]. *)
Module userstore.
Definition ClientType := string.
Record TrustedClient : Type :=
  { ID : string; Type_ : ClientType; Name : string }.
End userstore.

(** [privx-sdk-go/api/authorizer]: certificates are opaque to the
    commands; of a download handle they read the [SessionID]. *)
Module authorizer.
Record CA : Type := { ID : string; Subject : string }.
Record DownloadHandle : Type := { SessionID : string }.
End authorizer.

(** [privx-sdk-go/api/rolestore]. *)
Module rolestore.
Record User : Type := { ID : string; Name : string }.
End rolestore.

(** What [stdout] is asked to print. *)
Inductive Value : Type :=
| VClients (l : list userstore.TrustedClient)
| VClient (c : userstore.TrustedClient)
| VCAs (l : list authorizer.CA)
| VCA (c : authorizer.CA)
| VUsers (l : list rolestore.User).

(** ** Effects

    One constructor per operation the two files perform, indexed by what
    the operation gives back.  The SDK operations are remote; [stdout]
    (defined elsewhere in package [cmd]) and [Println] are local. *)

Inductive Call : Type -> Type :=
| TrustedClients : Call (result (list userstore.TrustedClient))
| TrustedClient (id : string) : Call (result userstore.TrustedClient)
| ExtenderCACertificates (accessGroupID : string)
  : Call (result (list authorizer.CA))
| WebProxyCACertificates (accessGroupID : string)
  : Call (result (list authorizer.CA))
| ExtenderCACertificate (id : string) : Call (result authorizer.CA)
| WebProxyCACertificate (id : string) : Call (result authorizer.CA)
| DownloadExtenderCertificateCRL (filename id : string) : Call (option error)
| DownloadWebProxyCertificateCRL (filename id : string) : Call (option error)
| ExtenderConfigDownloadHandle (id : string)
  : Call (result authorizer.DownloadHandle)
| DownloadExtenderConfig (id sessionID filename : string)
  : Call (option error)
| WebProxySessionDownloadHandle (id : string)
  : Call (result authorizer.DownloadHandle)
| DownloadWebProxyConfig (id sessionID filename : string)
  : Call (option error)
| CarrierConfigDownloadHandle (id : string)
  : Call (result authorizer.DownloadHandle)
| DownloadCarrierConfig (id sessionID filename : string)
  : Call (option error)
| DeleteRole (id : string) : Call (option error)
| GetRoleMembers (id : string) : Call (result (list rolestore.User))
| stdout (v : Value) : Call (option error)
| Println (s : string) : Call unit.

Inductive Event : Type :=
| Ev {R : Type} (c : Call R).

Definition is_remote (e : Event) : bool :=
  match e with
  | Ev (stdout _) => false
  | Ev (Println _) => false
  | Ev _ => true
  end.

(** The remote operations of a trace, in order. *)
Definition remote_calls (t : list Event) : list Event := filter is_remote t.

(** The service, the terminal and the file system, all at once: a
    state and an answer to every call. *)
Definition handler (St : Type) : Type :=
  forall R, Call R -> St -> R * St.

(** The outcome of running a command. *)
Record Outcome (St A : Type) : Type :=
  { value : A; final : St; trace : list Event }.
Arguments value {St A} o.
Arguments final {St A} o.
Arguments trace {St A} o.

(** Commands: state passing over the service state, logging each call. *)
Definition M (St A : Type) : Type := handler St -> St -> Outcome St A.

Definition ret {St A} (a : A) : M St A :=
  fun _ s => {| value := a; final := s; trace := [] |}.

Definition bind {St A B} (m : M St A) (k : A -> M St B) : M St B :=
  fun h s =>
    let o1 := m h s in
    let o2 := k (value o1) h (final o1) in
    {| value := value o2; final := final o2;
       trace := trace o1 ++ trace o2 |}.

Definition call {St R} (c : Call R) : M St R :=
  fun h s =>
    let (r, s') := h R c s in
    {| value := r; final := s'; trace := [Ev c] |}.

Declare Scope cmd_scope.
Delimit Scope cmd_scope with cmd.
Notation "x <- c ;; k" := (bind c (fun x => k))
  (at level 100, c at next level, right associativity) : cmd_scope.
Notation "c ;; k" := (bind c (fun _ => k))
  (at level 100, right associativity) : cmd_scope.
Local Open Scope cmd_scope.

(** ** A small model of [cobra.Command]

    A command owns an options record, a set of string flags bound to the
    fields of that record ([flags.StringVar(&options.f, name, "", _)]),
    the names marked with [MarkFlagRequired], and its [RunE] closure.
    The command line is taken as already tokenised into
    [(flag name, value)] pairs. *)

Record Flag (O : Type) : Type :=
  { flag_name : string; flag_store : string -> O -> O }.
Arguments flag_name {O} f.
Arguments flag_store {O} f.

Record Command (St O : Type) : Type :=
  { Use : string;
    options0 : O;
    Flags : list (Flag O);
    Required : list string;
    RunE : O -> M St (option error) }.
Arguments Use {St O} c.
Arguments options0 {St O} c.
Arguments Flags {St O} c.
Arguments Required {St O} c.
Arguments RunE {St O} c.

Definition lookupFlag {O} (flags : list (Flag O)) (name : string)
  : option (Flag O) :=
  find (fun f => String.eqb (flag_name f) name) flags.

(** Flag values are stored left to right; a later occurrence of a flag
    overwrites an earlier one, an unknown flag is an error. *)
Fixpoint parseFlags {O} (flags : list (Flag O))
  (argv : list (string * string)) (o : O) : result O :=
  match argv with
  | [] => Ok o
  | (name, v) :: rest =>
      match lookupFlag flags name with
      | Some f => parseFlags flags rest (flag_store f v o)
      | None => Err (Errorf ("unknown flag: --" ++ name))
      end
  end.

Definition missingFlags (required : list string)
  (argv : list (string * string)) : list string :=
  filter (fun name => negb (existsb (String.eqb name) (map fst argv)))
    required.

(** Parse, check the required flags, and only then run [RunE].  The
    help flag that cobra adds to every command ([--help], [-h]) is not
    part of this model; command lines asking for the help text are
    outside it. *)
Definition Execute {St O} (cmd : Command St O)
  (argv : list (string * string)) : M St (option error) :=
  match parseFlags (Flags cmd) argv (options0 cmd) with
  | Err e => ret (Some e)
  | Ok o =>
      match missingFlags (Required cmd) argv with
      | [] => RunE cmd o
      | name :: _ =>
          ret (Some (Errorf ("required flag(s) not set: " ++ name)))
      end
  end.

(** ** cmd/trustedclients.go *)

Record trustedClientOptions : Type :=
  { accessGroupID : string;
    extenderID : string;
    fileName : string;
    clientType : string;
    trustedClientID : string }.

(** [trustedClientOptions{}] *)
Definition trustedClientOptions_zero : trustedClientOptions :=
  {| accessGroupID := ""; extenderID := ""; fileName := "";
     clientType := ""; trustedClientID := "" |}.

(** Assignments through [&options.f]. *)
Definition set_accessGroupID (v : string) (o : trustedClientOptions) :=
  {| accessGroupID := v; extenderID := extenderID o;
     fileName := fileName o; clientType := clientType o;
     trustedClientID := trustedClientID o |}.
Definition set_extenderID (v : string) (o : trustedClientOptions) :=
  {| accessGroupID := accessGroupID o; extenderID := v;
     fileName := fileName o; clientType := clientType o;
     trustedClientID := trustedClientID o |}.
Definition set_fileName (v : string) (o : trustedClientOptions) :=
  {| accessGroupID := accessGroupID o; extenderID := extenderID o;
     fileName := v; clientType := clientType o;
     trustedClientID := trustedClientID o |}.
Definition set_clientType (v : string) (o : trustedClientOptions) :=
  {| accessGroupID := accessGroupID o; extenderID := extenderID o;
     fileName := fileName o; clientType := v;
     trustedClientID := trustedClientID o |}.
Definition set_trustedClientID (v : string) (o : trustedClientOptions) :=
  {| accessGroupID := accessGroupID o; extenderID := extenderID o;
     fileName := fileName o; clientType := clientType o;
     trustedClientID := v |}.

Definition normalizeClientType (m : trustedClientOptions) : string :=
  strings.ToUpper (clientType m).

(** [fmt.Errorf("client type does not exist: %s", t)] *)
Definition errNoSuchType (t : string) : error :=
  Errorf ("client type does not exist: " ++ t).

(** The [for ... range] loop of [trustedClientListHelper]: one pass,
    appending each client of the requested type to [clients]. *)
Definition trustedClientListHelper
  (trustedClients : list userstore.TrustedClient) (clientType : string)
  : list userstore.TrustedClient :=
  fold_left
    (fun clients client =>
       if String.eqb (userstore.Type_ client) clientType
       then clients ++ [client] else clients)
    trustedClients [].

Section TrustedClients.
Context {St : Type}.

Definition trustedClientList (options : trustedClientOptions)
  : M St (option error) :=
  r <- call TrustedClients ;;
  match r with
  | Err err => ret (Some err)
  | Ok res =>
      if clientType options =? "extender" then
        call (stdout (VClients
          (trustedClientListHelper res (normalizeClientType options))))
      else if clientType options =? "webproxy" then
        call (stdout (VClients (trustedClientListHelper res "ICAP")))
      else if clientType options =? "carrier" then
        call (stdout (VClients
          (trustedClientListHelper res (normalizeClientType options))))
      else ret (Some (errNoSuchType (clientType options)))
  end.

Definition trustedClientListCmd : Command St trustedClientOptions :=
  {| Use := "list";
     options0 := trustedClientOptions_zero;
     Flags := [ {| flag_name := "type"; flag_store := set_clientType |} ];
     Required := ["type"];
     RunE := fun options => trustedClientList options |}.

Definition trustedClientShow (options : trustedClientOptions)
  : M St (option error) :=
  r <- call (TrustedClient (trustedClientID options)) ;;
  match r with
  | Err err => ret (Some err)
  | Ok client => call (stdout (VClient client))
  end.

Definition trustedClientShowCmd : Command St trustedClientOptions :=
  {| Use := "show";
     options0 := trustedClientOptions_zero;
     Flags := [ {| flag_name := "client-id";
                   flag_store := set_trustedClientID |} ];
     Required := ["client-id"];
     RunE := fun options => trustedClientShow options |}.

Definition extenderCAList (options : trustedClientOptions)
  : M St (option error) :=
  r <- call (ExtenderCACertificates (accessGroupID options)) ;;
  match r with
  | Err err => ret (Some err)
  | Ok certificates => call (stdout (VCAs certificates))
  end.

Definition webproxyCAList (options : trustedClientOptions)
  : M St (option error) :=
  r <- call (WebProxyCACertificates (accessGroupID options)) ;;
  match r with
  | Err err => ret (Some err)
  | Ok certificates => call (stdout (VCAs certificates))
  end.

(** The [RunE] closure of [caListCmd].  The handlers are called as
    statements: what they return is dropped, and the closure goes on to
    [return nil]. *)
Definition caListCmd_RunE (options : trustedClientOptions)
  : M St (option error) :=
  if clientType options =? "extender" then
    (extenderCAList options ;; ret None)
  else if clientType options =? "webproxy" then
    (webproxyCAList options ;; ret None)
  else ret (Some (errNoSuchType (clientType options))).

Definition caListCmd : Command St trustedClientOptions :=
  {| Use := "list-ca";
     options0 := trustedClientOptions_zero;
     Flags := [ {| flag_name := "type"; flag_store := set_clientType |};
                {| flag_name := "group-id";
                   flag_store := set_accessGroupID |} ];
     Required := ["type"];
     RunE := caListCmd_RunE |}.

Definition extenderCAShow (options : trustedClientOptions)
  : M St (option error) :=
  r <- call (ExtenderCACertificate (trustedClientID options)) ;;
  match r with
  | Err err => ret (Some err)
  | Ok certificate => call (stdout (VCA certificate))
  end.

Definition webproxyCAShow (options : trustedClientOptions)
  : M St (option error) :=
  r <- call (WebProxyCACertificate (trustedClientID options)) ;;
  match r with
  | Err err => ret (Some err)
  | Ok certificate => call (stdout (VCA certificate))
  end.

Definition caShowCmd_RunE (options : trustedClientOptions)
  : M St (option error) :=
  if clientType options =? "extender" then
    (extenderCAShow options ;; ret None)
  else if clientType options =? "webproxy" then
    (webproxyCAShow options ;; ret None)
  else ret (Some (errNoSuchType (clientType options))).

(** Note the binding of ["client-id"]: it is [&options.extenderID]. *)
Definition caShowCmd : Command St trustedClientOptions :=
  {| Use := "show-ca";
     options0 := trustedClientOptions_zero;
     Flags := [ {| flag_name := "client-id";
                   flag_store := set_extenderID |};
                {| flag_name := "type"; flag_store := set_clientType |} ];
     Required := ["client-id"; "type"];
     RunE := caShowCmd_RunE |}.

Definition extenderRevocationList (options : trustedClientOptions)
  : M St (option error) :=
  err <- call (DownloadExtenderCertificateCRL
                 (fileName options) (trustedClientID options)) ;;
  match err with
  | Some e => ret (Some e)
  | None => ret None
  end.

Definition webproxyRevocationList (options : trustedClientOptions)
  : M St (option error) :=
  err <- call (DownloadWebProxyCertificateCRL
                 (fileName options) (trustedClientID options)) ;;
  match err with
  | Some e => ret (Some e)
  | None => ret None
  end.

Definition revocationListCmd_RunE (options : trustedClientOptions)
  : M St (option error) :=
  if clientType options =? "extender" then
    (extenderRevocationList options ;; ret None)
  else if clientType options =? "webproxy" then
    (webproxyRevocationList options ;; ret None)
  else ret (Some (errNoSuchType (clientType options))).

Definition revocationListCmd : Command St trustedClientOptions :=
  {| Use := "show-crl";
     options0 := trustedClientOptions_zero;
     Flags := [ {| flag_name := "client-id";
                   flag_store := set_extenderID |};
                {| flag_name := "name"; flag_store := set_fileName |};
                {| flag_name := "type"; flag_store := set_clientType |} ];
     Required := ["client-id"; "name"; "type"];
     RunE := revocationListCmd_RunE |}.

(** The two-step pre-configuration download, once per client type. *)
Definition downloadExtenderPreConf (options : trustedClientOptions)
  : M St (option error) :=
  r <- call (ExtenderConfigDownloadHandle (trustedClientID options)) ;;
  match r with
  | Err err => ret (Some err)
  | Ok handler =>
      err <- call (DownloadExtenderConfig (trustedClientID options)
                     (authorizer.SessionID handler) (fileName options)) ;;
      match err with
      | Some e => ret (Some e)
      | None => ret None
      end
  end.

Definition downloadWebProxyPreConf (options : trustedClientOptions)
  : M St (option error) :=
  r <- call (WebProxySessionDownloadHandle (trustedClientID options)) ;;
  match r with
  | Err err => ret (Some err)
  | Ok handler =>
      err <- call (DownloadWebProxyConfig (trustedClientID options)
                     (authorizer.SessionID handler) (fileName options)) ;;
      match err with
      | Some e => ret (Some e)
      | None => ret None
      end
  end.

Definition downloadCarrierPreConf (options : trustedClientOptions)
  : M St (option error) :=
  r <- call (CarrierConfigDownloadHandle (trustedClientID options)) ;;
  match r with
  | Err err => ret (Some err)
  | Ok handler =>
      err <- call (DownloadCarrierConfig (trustedClientID options)
                     (authorizer.SessionID handler) (fileName options)) ;;
      match err with
      | Some e => ret (Some e)
      | None => ret None
      end
  end.

(** As in the [RunE] closures above, the three downloads are called as
    statements and the switch ends in [return nil]. *)
Definition preconfigurationDownloadSwitch (options : trustedClientOptions)
  : M St (option error) :=
  if clientType options =? "extender" then
    (downloadExtenderPreConf options ;; ret None)
  else if clientType options =? "webproxy" then
    (downloadWebProxyPreConf options ;; ret None)
  else if clientType options =? "carrier" then
    (downloadCarrierPreConf options ;; ret None)
  else ret (Some (errNoSuchType (clientType options))).

Definition preconfigurationDownloadCmd : Command St trustedClientOptions :=
  {| Use := "pre-config";
     options0 := trustedClientOptions_zero;
     Flags := [ {| flag_name := "client-id";
                   flag_store := set_trustedClientID |};
                {| flag_name := "type"; flag_store := set_clientType |};
                {| flag_name := "name"; flag_store := set_fileName |} ];
     Required := ["client-id"; "type"; "name"];
     RunE := fun options => preconfigurationDownloadSwitch options |}.

End TrustedClients.

(** ** cmd/roles.go *)

Record roleOptions : Type :=
  { roleID : string;
    roleName : string;
    tokenCode : string;
    ttl : Z }.

Definition roleOptions_zero : roleOptions :=
  {| roleID := ""; roleName := ""; tokenCode := ""; ttl := 0%Z |}.

Definition set_roleID (v : string) (o : roleOptions) : roleOptions :=
  {| roleID := v; roleName := roleName o; tokenCode := tokenCode o;
     ttl := ttl o |}.

Section Roles.
Context {St : Type}.

(** The body of the loop of [roleDelete] over the remaining IDs: delete,
    leave on an error, otherwise echo the ID and go on. *)
Fixpoint roleDelete_range (ids : list string) : M St (option error) :=
  match ids with
  | [] => ret None
  | id :: rest =>
      err <- call (DeleteRole id) ;;
      match err with
      | Some e => ret (Some e)
      | None => call (Println id) ;; roleDelete_range rest
      end
  end.

Definition roleDelete (options : roleOptions) : M St (option error) :=
  roleDelete_range (strings.Split (roleID options) ",").

Definition roleDeleteCmd : Command St roleOptions :=
  {| Use := "delete";
     options0 := roleOptions_zero;
     Flags := [ {| flag_name := "id"; flag_store := set_roleID |} ];
     Required := ["id"];
     RunE := fun options => roleDelete options |}.

(** The loop of [roleMemberList]; [members] is the slice built so far.
    [Err] is the early [return err]. *)
Fixpoint roleMemberList_range (roles : list string)
  (members : list rolestore.User) : M St (result (list rolestore.User)) :=
  match roles with
  | [] => ret (Ok members)
  | role :: rest =>
      r <- call (GetRoleMembers role) ;;
      match r with
      | Err err => ret (Err err)
      | Ok member => roleMemberList_range rest (members ++ member)
      end
  end.

Definition roleMemberList (options : roleOptions) : M St (option error) :=
  r <- roleMemberList_range (strings.Split (roleID options) ",") [] ;;
  match r with
  | Err err => ret (Some err)
  | Ok members => call (stdout (VUsers members))
  end.

Definition rolesMemberListCmd : Command St roleOptions :=
  {| Use := "members";
     options0 := roleOptions_zero;
     Flags := [ {| flag_name := "id"; flag_store := set_roleID |} ];
     Required := ["id"];
     RunE := fun options => roleMemberList options |}.

End Roles.

(** ** Specification vocabulary *)

(** The normalisation rule in the words of the design: upper-case the
    token, except [webproxy], which is the fixed category [ICAP]. *)
Definition spec_normalize (token : string) : string :=
  if token =? "webproxy" then "ICAP" else strings.ToUpper token.

(** The tokens each dispatcher recognises. *)
Definition ca_tokens : list string := ["extender"; "webproxy"].
Definition client_tokens : list string := ["extender"; "webproxy"; "carrier"].

Definition recognized (tokens : list string) (t : string) : bool :=
  existsb (String.eqb t) tokens.

(** [Subseq l1 l2]: [l1] is [l2] with some elements left out, the rest
    in their original relative order. *)
Inductive Subseq {A : Type} : list A -> list A -> Prop :=
| Subseq_nil : Subseq [] []
| Subseq_skip x l1 l2 : Subseq l1 l2 -> Subseq l1 (x :: l2)
| Subseq_keep x l1 l2 : Subseq l1 l2 -> Subseq (x :: l1) (x :: l2).

(** [deleted ids]: the calls of deletions that went through; for each
    ID the request, then the echo of the ID. *)
Definition deleted (ids : list string) : list Event :=
  flat_map (fun id => [Ev (DeleteRole id); Ev (Println id)]) ids.

(** [deletes_ok h ids s s']: starting in [s], the service accepts the
    deletion of every role of [ids], in order, and [s'] is the state
    after the last of them has been deleted and echoed. *)
Inductive deletes_ok {St} (h : handler St)
  : list string -> St -> St -> Prop :=
| deletes_nil s : deletes_ok h [] s s
| deletes_cons id rest s s1 s2 s3 :
    h _ (DeleteRole id) s = (None, s1) ->
    h _ (Println id) s1 = (tt, s2) ->
    deletes_ok h rest s2 s3 ->
    deletes_ok h (id :: rest) s s3.

(** [members_ok h roles s ms s']: starting in [s], the member lookup
    succeeds for every role of [roles], in order; [ms] holds the
    sequences returned, one per role. *)
Inductive members_ok {St} (h : handler St)
  : list string -> St -> list (list rolestore.User) -> St -> Prop :=
| members_nil s : members_ok h [] s [] s
| members_cons role rest s s1 s2 m ms :
    h _ (GetRoleMembers role) s = (Ok m, s1) ->
    members_ok h rest s1 ms s2 ->
    members_ok h (role :: rest) s (m :: ms) s2.

(** The two-step download contract for one handle/download pair [f]:
    a failed first step is the whole run; otherwise the second step gets
    the same client ID, the session of the handle and the file name, and
    its answer is the answer of the run.  Either way each step is taken
    at most once. *)
Definition two_step {St}
  (getHandle : string -> Call (result authorizer.DownloadHandle))
  (download : string -> string -> string -> Call (option error))
  (f : trustedClientOptions -> M St (option error)) : Prop :=
  forall (h : handler St) (s : St) (options : trustedClientOptions),
    let id := trustedClientID options in
    (forall e s1,
        h _ (getHandle id) s = (Err e, s1) ->
        f options h s =
          {| value := Some e; final := s1;
             trace := [Ev (getHandle id)] |})
    /\
    (forall hd s1 r s2,
        h _ (getHandle id) s = (Ok hd, s1) ->
        h _ (download id (authorizer.SessionID hd) (fileName options)) s1
          = (r, s2) ->
        f options h s =
          {| value := r; final := s2;
             trace := [Ev (getHandle id);
                       Ev (download id (authorizer.SessionID hd)
                             (fileName options))] |}).

(** [steps_then_nil token getHandle download]: given [token] as its
    type, the switch of pre-config makes the calls of the two-step
    download for that handle/download pair, stops after a failed first
    step, and returns nil whether or not a step failed. *)
Definition steps_then_nil {St} (token : string)
  (getHandle : string -> Call (result authorizer.DownloadHandle))
  (download : string -> string -> string -> Call (option error)) : Prop :=
  forall (h : handler St) (s : St) (options : trustedClientOptions),
    let id := trustedClientID options in
    clientType options = token ->
    (forall e s1,
        h _ (getHandle id) s = (Err e, s1) ->
        preconfigurationDownloadSwitch options h s =
          {| value := None; final := s1;
             trace := [Ev (getHandle id)] |})
    /\
    (forall hd s1 r s2,
        h _ (getHandle id) s = (Ok hd, s1) ->
        h _ (download id (authorizer.SessionID hd) (fileName options)) s1
          = (r, s2) ->
        preconfigurationDownloadSwitch options h s =
          {| value := None; final := s2;
             trace := [Ev (getHandle id);
                       Ev (download id (authorizer.SessionID hd)
                             (fileName options))] |}).

(** ** Two concrete services, for running the commands *)

Definition alice : rolestore.User :=
  {| rolestore.ID := "u1"; rolestore.Name := "alice" |}.
Definition bob : rolestore.User :=
  {| rolestore.ID := "u2"; rolestore.Name := "bob" |}.
Definition carol : rolestore.User :=
  {| rolestore.ID := "u3"; rolestore.Name := "carol" |}.

Definition client (id ty : string) : userstore.TrustedClient :=
  {| userstore.ID := id; userstore.Type_ := ty; userstore.Name := id |}.

Definition demo_clients : list userstore.TrustedClient :=
  [ client "c1" "EXTENDER"; client "c2" "ICAP"; client "c3" "CARRIER";
    client "c4" "EXTENDER"; client "c5" "WEBPROXY"; client "c6" "ICAP" ].

Definition demo_ca : authorizer.CA :=
  {| authorizer.ID := "ca1"; authorizer.Subject := "CN=privx" |}.

Definition notFound : error := APIError 404 "not found".
Definition forbidden : error := APIError 403 "forbidden".

(** An in-memory service.  The state is the list of existing role IDs.
    Roles ["r1"] and ["r2"] have members; certificates exist for client
    ["x1"] only and access group ["secret"] is forbidden; a download
    needs the session issued for its client. *)
Definition demo : handler (list string) :=
  fun R c =>
    match c in Call R return list string -> R * list string with
    | TrustedClients => fun s => (Ok demo_clients, s)
    | TrustedClient id => fun s =>
        (match find (fun x => userstore.ID x =? id) demo_clients with
         | Some x => Ok x
         | None => Err notFound
         end, s)
    | ExtenderCACertificates g | WebProxyCACertificates g => fun s =>
        (if g =? "secret" then Err forbidden else Ok [demo_ca], s)
    | ExtenderCACertificate id | WebProxyCACertificate id => fun s =>
        (if id =? "x1" then Ok demo_ca else Err notFound, s)
    | DownloadExtenderCertificateCRL _ id
    | DownloadWebProxyCertificateCRL _ id => fun s =>
        (if id =? "x1" then None else Some notFound, s)
    | ExtenderConfigDownloadHandle id
    | WebProxySessionDownloadHandle id
    | CarrierConfigDownloadHandle id => fun s =>
        (if id =? "x1"
         then Ok {| authorizer.SessionID := "session-" ++ id |}
         else Err notFound, s)
    | DownloadExtenderConfig id sid _
    | DownloadWebProxyConfig id sid _
    | DownloadCarrierConfig id sid _ => fun s =>
        (if sid =? "session-" ++ id then None else Some forbidden, s)
    | DeleteRole id => fun s =>
        if existsb (String.eqb id) s
        then (None, filter (fun x => negb (x =? id)) s)
        else (Some notFound, s)
    | GetRoleMembers id => fun s =>
        (if id =? "r1" then Ok [alice; bob]
         else if id =? "r2" then Ok [bob; carol]
         else Err notFound, s)
    | stdout _ => fun s => (None, s)
    | Println _ => fun s => (tt, s)
    end.

Definition unavailable : error := APIError 503 "service unavailable".

(** A service that is down: every remote operation fails. *)
Definition down : handler unit :=
  fun R c =>
    match c in Call R return unit -> R * unit with
    | TrustedClients => fun s => (Err unavailable, s)
    | TrustedClient _ => fun s => (Err unavailable, s)
    | ExtenderCACertificates _ | WebProxyCACertificates _ => fun s =>
        (Err unavailable, s)
    | ExtenderCACertificate _ | WebProxyCACertificate _ => fun s =>
        (Err unavailable, s)
    | DownloadExtenderCertificateCRL _ _
    | DownloadWebProxyCertificateCRL _ _ => fun s => (Some unavailable, s)
    | ExtenderConfigDownloadHandle _
    | WebProxySessionDownloadHandle _
    | CarrierConfigDownloadHandle _ => fun s => (Err unavailable, s)
    | DownloadExtenderConfig _ _ _
    | DownloadWebProxyConfig _ _ _
    | DownloadCarrierConfig _ _ _ => fun s => (Some unavailable, s)
    | DeleteRole _ => fun s => (Some unavailable, s)
    | GetRoleMembers _ => fun s => (Err unavailable, s)
    | stdout _ => fun s => (None, s)
    | Println _ => fun s => (tt, s)
    end.

(** ** cmd/roles.go, the remaining commands

    [roles], [roles create], [show], [update], [resolve] and
    [aws-token].  They use operations of the role store that the
    commands above do not, and two of them read a positional argument;
    they are given an effect signature and a command record of their
    own, built the same way. *)

(** SDK types these commands pass along without looking inside. *)
Module sdk.
Record Role : Type := { ID : string; Name : string }.
Record RoleRef : Type := { RefID : string; RefName : string }.
Record AWSToken : Type :=
  { AccessKeyID : string; SecretAccessKey : string; SessionToken : string }.
End sdk.

Module RoleAdmin.

Inductive Value : Type :=
| VRoles (l : list sdk.Role)
| VRole (r : sdk.Role)
| VID (id : string)
| VRefs (l : list sdk.RoleRef)
| VToken (t : sdk.AWSToken).

(** [decodeJSON] (defined elsewhere in package [cmd]) reads the named
    file into a role; like [stdout] it is local. *)
Inductive Op : Type -> Type :=
| Roles : Op (result (list sdk.Role))
| CreateRole (role : sdk.Role) : Op (result string)
| Role (roleID : string) : Op (result sdk.Role)
| UpdateRole (roleID : string) (role : sdk.Role) : Op (option error)
| ResolveRoles (names : list string) : Op (result (list sdk.RoleRef))
| AWSToken (roleID tokenCode : string) (ttl : Z)
  : Op (result sdk.AWSToken)
| decodeJSON (name : string) : Op (result sdk.Role)
| stdout (v : Value) : Op (option error).

Inductive Event : Type :=
| Ev {R : Type} (c : Op R).

Definition is_remote (e : Event) : bool :=
  match e with
  | Ev (decodeJSON _) => false
  | Ev (stdout _) => false
  | Ev _ => true
  end.

Definition remote_calls (t : list Event) : list Event := filter is_remote t.

Definition handler (St : Type) : Type :=
  forall R, Op R -> St -> R * St.

Record Outcome (St A : Type) : Type :=
  { value : A; final : St; trace : list Event }.
Arguments value {St A} o.
Arguments final {St A} o.
Arguments trace {St A} o.

Definition M (St A : Type) : Type := handler St -> St -> Outcome St A.

Definition ret {St A} (a : A) : M St A :=
  fun _ s => {| value := a; final := s; trace := [] |}.

Definition bind {St A B} (m : M St A) (k : A -> M St B) : M St B :=
  fun h s =>
    let o1 := m h s in
    let o2 := k (value o1) h (final o1) in
    {| value := value o2; final := final o2;
       trace := trace o1 ++ trace o2 |}.

Definition call {St R} (c : Op R) : M St R :=
  fun h s =>
    let (r, s') := h R c s in
    {| value := r; final := s'; trace := [Ev c] |}.

Declare Scope role_scope.
Notation "x <- c ;; k" := (bind c (fun x => k))
  (at level 100, c at next level, right associativity) : role_scope.
Local Open Scope role_scope.

(** How a [RunE] closure ends: it returns an error or nil, or the
    program panics (an index out of range). *)
Inductive exit : Type :=
| Return (err : option error)
| Panic.

(** A flag bound to a field: its name, the default written into the
    field when the flag is declared, and the conversion of a value given
    on the command line, which for [IntVar] can fail. *)
Record Flag (O : Type) : Type :=
  { flag_name : string;
    flag_default : O -> O;
    flag_parse : string -> O -> result O }.
Arguments flag_name {O} f.
Arguments flag_default {O} f.
Arguments flag_parse {O} f.

(** [Args] is [Some n] for [cobra.ExactArgs(n)] and [None] where the
    command sets no check (any positional arguments are accepted). *)
Record Command (St O : Type) : Type :=
  { Use : string;
    options0 : O;
    Flags : list (Flag O);
    Required : list string;
    Args : option nat;
    RunE : O -> list string -> M St exit }.
Arguments Use {St O} c.
Arguments options0 {St O} c.
Arguments Flags {St O} c.
Arguments Required {St O} c.
Arguments Args {St O} c.
Arguments RunE {St O} c.

Definition declared {O} (flags : list (Flag O)) (o : O) : O :=
  fold_left (fun o f => flag_default f o) flags o.

Fixpoint parseFlags {O} (flags : list (Flag O))
  (argv : list (string * string)) (o : O) : result O :=
  match argv with
  | [] => Ok o
  | (name, v) :: rest =>
      match find (fun f => String.eqb (flag_name f) name) flags with
      | Some f =>
          match flag_parse f v o with
          | Ok o' => parseFlags flags rest o'
          | Err e => Err e
          end
      | None => Err (Errorf ("unknown flag: --" ++ name))
      end
  end.

Definition argsAccepted (check : option nat) (args : list string) : bool :=
  match check with
  | Some n => Nat.eqb (length args) n
  | None => true
  end.

(** Parse the flags, check the positional arguments, check the required
    flags, then run.  As above, cobra's own help flag is left out. *)
Definition Execute {St O} (cmd : Command St O)
  (argv : list (string * string)) (args : list string) : M St exit :=
  match parseFlags (Flags cmd) argv (declared (Flags cmd) (options0 cmd)) with
  | Err e => ret (Return (Some e))
  | Ok o =>
      if argsAccepted (Args cmd) args then
        match missingFlags (Required cmd) argv with
        | [] => RunE cmd o args
        | name :: _ =>
            ret (Return (Some (Errorf ("required flag(s) not set: " ++ name))))
        end
      else ret (Return (Some (Errorf "wrong number of arguments")))
  end.

(** [StringVar(&options.f, name, "", _)] *)
Definition StringVar {O} (store : string -> O -> O) (name : string)
  : Flag O :=
  {| flag_name := name;
     flag_default := store "";
     flag_parse := fun v o => Ok (store v o) |}.

(** [IntVar(&options.f, name, value, _)]; [ParseInt] is the conversion
    of the flag library. *)
Definition IntVar {O} (ParseInt : string -> option Z)
  (store : Z -> O -> O) (name : string) (value : Z) : Flag O :=
  {| flag_name := name;
     flag_default := store value;
     flag_parse := fun v o =>
       match ParseInt v with
       | Some n => Ok (store n o)
       | None => Err (Errorf ("invalid argument for flag --" ++ name))
       end |}.

Definition set_roleName (v : string) (o : roleOptions) : roleOptions :=
  {| roleID := roleID o; roleName := v; tokenCode := tokenCode o;
     ttl := ttl o |}.
Definition set_tokenCode (v : string) (o : roleOptions) : roleOptions :=
  {| roleID := roleID o; roleName := roleName o; tokenCode := v;
     ttl := ttl o |}.
Definition set_ttl (v : Z) (o : roleOptions) : roleOptions :=
  {| roleID := roleID o; roleName := roleName o; tokenCode := tokenCode o;
     ttl := v |}.

Section Commands.
Context {St : Type}.

(** A function of type [func(...) error] used as the whole of [RunE]. *)
Definition returning (m : M St (option error)) : M St exit :=
  err <- m ;; ret (Return err).

Definition roleList : M St (option error) :=
  r <- call Roles ;;
  match r with
  | Err err => ret (Some err)
  | Ok roles => call (stdout (VRoles roles))
  end.

Definition roleListCmd : Command St unit :=
  {| Use := "roles";
     options0 := tt;
     Flags := [];
     Required := [];
     Args := None;
     RunE := fun _ _ => returning roleList |}.

(** [args[0]] panics on an empty slice. *)
Definition roleCreate (args : list string) : M St exit :=
  match args with
  | [] => ret Panic
  | file :: _ =>
      r <- call (decodeJSON file) ;;
      match r with
      | Err err => ret (Return (Some err))
      | Ok newRole =>
          r <- call (CreateRole newRole) ;;
          match r with
          | Err err => ret (Return (Some err))
          | Ok id => returning (call (stdout (VID id)))
          end
      end
  end.

Definition roleCreateCmd : Command St unit :=
  {| Use := "create";
     options0 := tt;
     Flags := [];
     Required := [];
     Args := Some 1;
     RunE := fun _ args => roleCreate args |}.

Definition roleShow (options : roleOptions) : M St (option error) :=
  r <- call (Role (roleID options)) ;;
  match r with
  | Err err => ret (Some err)
  | Ok role => call (stdout (VRole role))
  end.

Definition roleShowCmd : Command St roleOptions :=
  {| Use := "show";
     options0 := roleOptions_zero;
     Flags := [StringVar set_roleID "id"];
     Required := ["id"];
     Args := None;
     RunE := fun options _ => returning (roleShow options) |}.

Definition roleUpdate (options : roleOptions) (args : list string)
  : M St exit :=
  match args with
  | [] => ret Panic
  | file :: _ =>
      r <- call (decodeJSON file) ;;
      match r with
      | Err err => ret (Return (Some err))
      | Ok updateRole =>
          err <- call (UpdateRole (roleID options) updateRole) ;;
          match err with
          | Some e => ret (Return (Some e))
          | None => ret (Return None)
          end
      end
  end.

Definition roleUpdateCmd : Command St roleOptions :=
  {| Use := "update";
     options0 := roleOptions_zero;
     Flags := [StringVar set_roleID "id"];
     Required := ["id"];
     Args := Some 1;
     RunE := fun options args => roleUpdate options args |}.

Definition roleResolve (options : roleOptions) : M St (option error) :=
  r <- call (ResolveRoles (strings.Split (roleName options) ",")) ;;
  match r with
  | Err err => ret (Some err)
  | Ok id => call (stdout (VRefs id))
  end.

Definition roleResolveCmd : Command St roleOptions :=
  {| Use := "resolve";
     options0 := roleOptions_zero;
     Flags := [StringVar set_roleName "name"];
     Required := ["name"];
     Args := None;
     RunE := fun options _ => returning (roleResolve options) |}.

Definition awsTokenShow (options : roleOptions) : M St (option error) :=
  r <- call (AWSToken (roleID options) (tokenCode options) (ttl options)) ;;
  match r with
  | Err err => ret (Some err)
  | Ok token => call (stdout (VToken token))
  end.

Definition awsTokenShowCmd (ParseInt : string -> option Z)
  : Command St roleOptions :=
  {| Use := "aws-token";
     options0 := roleOptions_zero;
     Flags := [StringVar set_roleID "id";
               StringVar set_tokenCode "mfa";
               IntVar ParseInt set_ttl "ttl" 50%Z];
     Required := ["id"];
     Args := None;
     RunE := fun options _ => returning (awsTokenShow options) |}.

End Commands.

(** [quiet s run]: the run ended with an error, without any call. *)
Definition quiet {St} (s : St) (run : Outcome St exit) : Prop :=
  (exists e, value run = Return (Some e)) /\ final run = s /\ trace run = [].

(** Decimal digits only: a stand-in for the conversion of the flag
    library, enough to run the commands. *)
Fixpoint digits (s : string) (acc : Z) : option Z :=
  match s with
  | EmptyString => Some acc
  | String c r =>
      let n := nat_of_ascii c in
      if ((48 <=? n)%nat && (n <=? 57)%nat)%bool
      then digits r (10 * acc + Z.of_nat (n - 48))%Z
      else None
  end.

Definition decimal (s : string) : option Z :=
  match s with
  | EmptyString => None
  | _ => digits s 0%Z
  end.

Definition admin : sdk.Role := {| sdk.ID := "r1"; sdk.Name := "admin" |}.

Definition token : sdk.AWSToken :=
  {| sdk.AccessKeyID := "AKIA"; sdk.SecretAccessKey := "secret";
     sdk.SessionToken := "session" |}.

(** A small role store.  The state counts the roles created; the only
    readable file is ["role.json"]; role ["r1"] exists; an AWS token
    needs the MFA code ["123456"]. *)
Definition store : handler nat :=
  fun R c =>
    match c in Op R return nat -> R * nat with
    | Roles => fun s => (Ok [admin], s)
    | CreateRole _ => fun s => (Ok "new-id", S s)
    | Role id => fun s =>
        (if id =? "r1" then Ok admin else Err notFound, s)
    | UpdateRole id _ => fun s =>
        (if id =? "r1" then None else Some notFound, s)
    | ResolveRoles names => fun s =>
        (Ok (map (fun n => {| sdk.RefID := "id-" ++ n; sdk.RefName := n |})
               names), s)
    | AWSToken id code _ => fun s =>
        (if code =? "123456" then Ok token else Err forbidden, s)
    | decodeJSON name => fun s =>
        (if name =? "role.json" then Ok admin
         else Err (Errorf "no such file"), s)
    | stdout _ => fun s => (None, s)
    end.

End RoleAdmin.

(** The request of one member lookup. *)
Definition lookup (role : string) : Event := Ev (GetRoleMembers role).

(** The number of occurrences of the byte [sep] in [s]. *)
Definition countByte (s : string) (sep : ascii) : nat :=
  length (filter (Ascii.eqb sep) (list_ascii_of_string s)).

(** * Properties *)

(** ** The [strings] model *)

Example ToUpper_extender : strings.ToUpper "extender" = "EXTENDER".
Proof. reflexivity. Qed.

Example ToUpper_webproxy : strings.ToUpper "webproxy" = "WEBPROXY".
Proof. reflexivity. Qed.

Example Split_pieces : strings.Split "a,b,,c" "," = ["a"; "b"; ""; "c"].
Proof. reflexivity. Qed.

Example Split_no_separator : strings.Split "r1" "," = ["r1"].
Proof. reflexivity. Qed.

Lemma Split_nonempty (s : string) (sep : ascii) : strings.Split s sep <> [].
Proof.
  unfold strings.Split.
  destruct s as [|c r]; simpl; [discriminate|].
  destruct (Ascii.eqb c sep); [discriminate|].
  destruct (strings.Split1 r sep); discriminate.
Qed.

(** Joining the pieces with the separator gives the string back, so
    [Split] neither loses nor invents bytes. *)
Lemma Join_Split (s : string) (sep : ascii) :
  strings.Join (strings.Split s sep) sep = s.
Proof.
  unfold strings.Split.
  induction s as [|c r IH]; simpl; [reflexivity|].
  destruct (Ascii.eqb_spec c sep) as [->|Hne].
  - pose proof (Split_nonempty r sep) as Hn. unfold strings.Split in Hn.
    destruct (strings.Split1 r sep) as [|p ps] eqn:E; [congruence|].
    simpl. rewrite <- IH. reflexivity.
  - destruct (strings.Split1 r sep) as [|p ps] eqn:E.
    + simpl in IH. subst r. reflexivity.
    + destruct ps as [|q qs]; simpl in *; rewrite <- IH; reflexivity.
Qed.

(** No piece contains the separator; with [Join_Split] this determines
    [Split]. *)
Lemma Split_pieces_clean (s : string) (sep : ascii) :
  Forall (fun piece => strings.ContainsByte piece sep = false)
    (strings.Split s sep).
Proof.
  unfold strings.Split.
  induction s as [|c r IH]; simpl.
  - now constructor.
  - destruct (Ascii.eqb c sep) eqn:E.
    + now constructor.
    + destruct (strings.Split1 r sep) as [|p ps].
      * constructor; [|constructor]. simpl. now rewrite E.
      * inversion IH as [|? ? Hp Hps]; subst.
        constructor; [|assumption]. simpl. now rewrite E.
Qed.

(** ** The trusted-client filter *)

Section Filter.
Variable clientType : string.

Let wanted (client : userstore.TrustedClient) : bool :=
  userstore.Type_ client =? clientType.

Lemma helper_loop_filter (l acc : list userstore.TrustedClient) :
  fold_left
    (fun clients client =>
       if userstore.Type_ client =? clientType
       then clients ++ [client] else clients) l acc
  = acc ++ filter wanted l.
Proof.
  revert acc.
  induction l as [|x l IH]; intros acc; simpl.
  - now rewrite app_nil_r.
  - rewrite IH. unfold wanted at 2.
    destruct (userstore.Type_ x =? clientType); [|reflexivity].
    now rewrite <- app_assoc.
Qed.

Lemma helper_is_filter (l : list userstore.TrustedClient) :
  trustedClientListHelper l clientType = filter wanted l.
Proof. unfold trustedClientListHelper. now rewrite helper_loop_filter. Qed.

Lemma filter_Subseq {A} (p : A -> bool) (l : list A) :
  Subseq (filter p l) l.
Proof.
  induction l as [|x l IH]; simpl; [constructor|].
  destruct (p x); now constructor.
Qed.

Lemma filter_twice {A} (p : A -> bool) (l : list A) :
  filter p (filter p l) = filter p l.
Proof.
  induction l as [|x l IH]; simpl; [reflexivity|].
  destruct (p x) eqn:E; simpl; [rewrite E, IH|]; auto.
Qed.

Lemma filter_none {A} (p : A -> bool) (l : list A) :
  (forall x, In x l -> p x = false) -> filter p l = [].
Proof.
  induction l as [|x l IH]; simpl; intros H; [reflexivity|].
  rewrite (H x (or_introl eq_refl)). apply IH. intros y Hy. apply H. now right.
Qed.

End Filter.

(** ** Running commands *)

Lemma call_run {St R} (c : Call R) (h : handler St) (s : St) :
  call c h s =
    {| value := fst (h R c s); final := snd (h R c s); trace := [Ev c] |}.
Proof. unfold call. now destruct (h R c s). Qed.

Lemma bind_run {St A B} (m : M St A) (k : A -> M St B) h s :
  bind m k h s =
    {| value := value (k (value (m h s)) h (final (m h s)));
       final := final (k (value (m h s)) h (final (m h s)));
       trace := trace (m h s) ++ trace (k (value (m h s)) h (final (m h s))) |}.
Proof. reflexivity. Qed.

Lemma ret_run {St A} (a : A) (h : handler St) s :
  ret a h s = {| value := a; final := s; trace := [] |}.
Proof. reflexivity. Qed.

(** Unfold one command down to the answers of the handler. *)
Ltac run_cmd :=
  repeat (rewrite ?bind_run, ?call_run, ?ret_run; cbn [value final trace]).

Lemma recognized_client_tokens (t : string) :
  recognized client_tokens t = true <->
  t = "extender" \/ t = "webproxy" \/ t = "carrier".
Proof.
  unfold recognized, client_tokens; cbn [existsb].
  rewrite !orb_true_iff, !String.eqb_eq. intuition discriminate.
Qed.

Lemma recognized_ca_tokens (t : string) :
  recognized ca_tokens t = true <-> t = "extender" \/ t = "webproxy".
Proof.
  unfold recognized, ca_tokens; cbn [existsb].
  rewrite !orb_true_iff, !String.eqb_eq. intuition discriminate.
Qed.

Lemma unrecognized_client_tokens (t : string) :
  recognized client_tokens t = false ->
  (t =? "extender") = false /\ (t =? "webproxy") = false
  /\ (t =? "carrier") = false.
Proof.
  unfold recognized, client_tokens; cbn [existsb].
  rewrite !orb_false_iff. tauto.
Qed.

Lemma unrecognized_ca_tokens (t : string) :
  recognized ca_tokens t = false ->
  (t =? "extender") = false /\ (t =? "webproxy") = false.
Proof.
  unfold recognized, ca_tokens; cbn [existsb].
  rewrite !orb_false_iff. tauto.
Qed.

(** What [trusted-clients list] does with a recognised token once the
    listing has arrived: it prints the clients filtered by the category
    of the token. *)
Lemma trustedClientList_recognized {St} (h : handler St) s s1 res options :
  h _ TrustedClients s = (Ok res, s1) ->
  recognized client_tokens (clientType options) = true ->
  let printed :=
    stdout (VClients
      (trustedClientListHelper res (spec_normalize (clientType options)))) in
  trustedClientList options h s =
    {| value := fst (h _ printed s1); final := snd (h _ printed s1);
       trace := [Ev TrustedClients; Ev printed] |}.
Proof.
  intros Hres Htok. apply recognized_client_tokens in Htok.
  unfold trustedClientList, normalizeClientType.
  rewrite bind_run, call_run, Hres. cbn [value final trace fst snd].
  destruct Htok as [E|[E|E]]; rewrite E; cbn; now rewrite call_run.
Qed.

Lemma trustedClientList_unrecognized {St} (h : handler St) s s1 res options :
  h _ TrustedClients s = (Ok res, s1) ->
  recognized client_tokens (clientType options) = false ->
  trustedClientList options h s =
    {| value := Some (errNoSuchType (clientType options)); final := s1;
       trace := [Ev TrustedClients] |}.
Proof.
  intros Hres Htok.
  apply unrecognized_client_tokens in Htok as (E1 & E2 & E3).
  unfold trustedClientList.
  rewrite bind_run, call_run, Hres. cbn [value final trace fst snd].
  now rewrite E1, E2, E3.
Qed.

Lemma trustedClientList_failed {St} (h : handler St) s s1 e options :
  h _ TrustedClients s = (Err e, s1) ->
  trustedClientList options h s =
    {| value := Some e; final := s1; trace := [Ev TrustedClients] |}.
Proof.
  intros Hres. unfold trustedClientList.
  rewrite bind_run, call_run, Hres. reflexivity.
Qed.

(** C4: the filter returns exactly the clients of the requested type, in
    their original order, and nothing (rather than an error) when there
    is none; [trusted-clients list] prints the result of the filter for
    the category of the token it was given. *)
Theorem trustedClientListHelper_subsequence :
  (forall (L : list userstore.TrustedClient) (c : string),
      let out := trustedClientListHelper L c in
      out = filter (fun x => userstore.Type_ x =? c) L
      /\ Subseq out L
      /\ (forall x, In x out <-> In x L /\ userstore.Type_ x = c)
      /\ ((forall x, In x L -> userstore.Type_ x <> c) -> out = []))
  /\
  (forall St (h : handler St) s s1 L options,
      h _ TrustedClients s = (Ok L, s1) ->
      recognized client_tokens (clientType options) = true ->
      trace (trustedClientList options h s) =
        [Ev TrustedClients;
         Ev (stdout (VClients
               (filter
                  (fun x =>
                     userstore.Type_ x =? spec_normalize (clientType options))
                  L)))]).
Proof.
  split.
  - intros L c out. subst out. rewrite helper_is_filter.
    repeat split.
    + apply filter_Subseq.
    + apply filter_In in H. tauto.
    + apply filter_In in H as [_ H]. now apply String.eqb_eq.
    + intros [HL Hc]. apply filter_In. split; [assumption|].
      now apply String.eqb_eq.
    + intros Hnone. apply filter_none. intros x Hx.
      apply String.eqb_neq. now apply Hnone.
  - intros St h s s1 L options Hres Htok.
    rewrite (trustedClientList_recognized h s s1 L options Hres Htok).
    cbn [trace]. now rewrite helper_is_filter.
Qed.

Lemma trustedClientListHelper_subsequence_witness :
  trustedClientListHelper demo_clients "ICAP"
    = [client "c2" "ICAP"; client "c6" "ICAP"]
  /\ trustedClientListHelper demo_clients "icap" = []
  /\ trace (trustedClientList (set_clientType "webproxy"
                                 trustedClientOptions_zero) demo [])
     = [Ev TrustedClients;
        Ev (stdout (VClients [client "c2" "ICAP"; client "c6" "ICAP"]))].
Proof.
  destruct trustedClientListHelper_subsequence as [Hfilter Hcmd].
  split; [|split].
  - destruct (Hfilter demo_clients "ICAP") as (-> & _). reflexivity.
  - destruct (Hfilter demo_clients "icap") as (_ & _ & _ & Hnone).
    apply Hnone. cbn. intros x Hx.
    repeat (destruct Hx as [<-|Hx]; [discriminate|]). destruct Hx.
  - rewrite (Hcmd _ demo [] [] demo_clients); reflexivity.
Defined.

(** C9: filtering an already filtered list by the same category changes
    nothing. *)
Theorem trustedClientListHelper_idempotent :
  forall (L : list userstore.TrustedClient) (c : string),
    trustedClientListHelper (trustedClientListHelper L c) c
    = trustedClientListHelper L c.
Proof.
  intros L c. rewrite !helper_is_filter. apply filter_twice.
Qed.

(** C5: the category handed to the filter by [trusted-clients list] is
    ICAP for [webproxy] (the upper-cased token would be WEBPROXY),
    EXTENDER for [extender] and CARRIER for [carrier]; any other token
    ends the command with the error of the [default] branch, and nothing
    is filtered or printed. *)
Theorem dispatcher_normalization :
  forall St (h : handler St) s s1 L options,
    h _ TrustedClients s = (Ok L, s1) ->
    let t := clientType options in
    let run := trustedClientList options h s in
    (t = "webproxy" ->
       normalizeClientType options = "WEBPROXY" /\
       trace run =
         [Ev TrustedClients;
          Ev (stdout (VClients (trustedClientListHelper L "ICAP")))])
    /\ (t = "extender" ->
       trace run =
         [Ev TrustedClients;
          Ev (stdout (VClients (trustedClientListHelper L "EXTENDER")))])
    /\ (t = "carrier" ->
       trace run =
         [Ev TrustedClients;
          Ev (stdout (VClients (trustedClientListHelper L "CARRIER")))])
    /\ (recognized client_tokens t = false ->
       value run = Some (errNoSuchType t) /\ trace run = [Ev TrustedClients]).
Proof.
  intros St h s s1 L options Hres t run. subst t run.
  assert (Hrec : forall c,
             clientType options = c ->
             recognized client_tokens c = true ->
             trace (trustedClientList options h s) =
               [Ev TrustedClients;
                Ev (stdout (VClients
                      (trustedClientListHelper L (spec_normalize c))))]).
  { intros c <- Hc.
    now rewrite (trustedClientList_recognized h s s1 L options Hres Hc). }
  split; [|split; [|split]].
  - intros E. split.
    + unfold normalizeClientType. now rewrite E.
    + now apply (Hrec "webproxy").
  - intros E. now apply (Hrec "extender").
  - intros E. now apply (Hrec "carrier").
  - intros Hno.
    now rewrite (trustedClientList_unrecognized h s s1 L options Hres Hno).
Qed.

Lemma dispatcher_normalization_witness :
  trace (trustedClientList
           (set_clientType "webproxy" trustedClientOptions_zero) demo [])
  = [Ev TrustedClients;
     Ev (stdout (VClients (trustedClientListHelper demo_clients "ICAP")))]
  /\ value (trustedClientList
              (set_clientType "WebProxy" trustedClientOptions_zero) demo [])
     = Some (Errorf "client type does not exist: WebProxy").
Proof.
  split.
  - apply (dispatcher_normalization _ demo [] [] demo_clients
             (set_clientType "webproxy" trustedClientOptions_zero)
             eq_refl).
    reflexivity.
  - apply (dispatcher_normalization _ demo [] [] demo_clients
             (set_clientType "WebProxy" trustedClientOptions_zero)
             eq_refl).
    reflexivity.
Defined.

(** ** The dispatchers of list-ca, show-ca, show-crl and pre-config *)

Section Dispatch.
Context {St : Type}.
Variables (h : handler St) (s : St) (options : trustedClientOptions).

Lemma extenderCAList_remote :
  remote_calls (trace (extenderCAList options h s)) =
    [Ev (ExtenderCACertificates (accessGroupID options))].
Proof.
  unfold extenderCAList. run_cmd.
  destruct (fst (h _ (ExtenderCACertificates _) s)); run_cmd; reflexivity.
Qed.

Lemma webproxyCAList_remote :
  remote_calls (trace (webproxyCAList options h s)) =
    [Ev (WebProxyCACertificates (accessGroupID options))].
Proof.
  unfold webproxyCAList. run_cmd.
  destruct (fst (h _ (WebProxyCACertificates _) s)); run_cmd; reflexivity.
Qed.

Lemma extenderCAShow_remote :
  remote_calls (trace (extenderCAShow options h s)) =
    [Ev (ExtenderCACertificate (trustedClientID options))].
Proof.
  unfold extenderCAShow. run_cmd.
  destruct (fst (h _ (ExtenderCACertificate _) s)); run_cmd; reflexivity.
Qed.

Lemma webproxyCAShow_remote :
  remote_calls (trace (webproxyCAShow options h s)) =
    [Ev (WebProxyCACertificate (trustedClientID options))].
Proof.
  unfold webproxyCAShow. run_cmd.
  destruct (fst (h _ (WebProxyCACertificate _) s)); run_cmd; reflexivity.
Qed.

Lemma extenderRevocationList_trace :
  trace (extenderRevocationList options h s) =
    [Ev (DownloadExtenderCertificateCRL
           (fileName options) (trustedClientID options))].
Proof.
  unfold extenderRevocationList. run_cmd.
  destruct (fst (h _ (DownloadExtenderCertificateCRL _ _) s)); reflexivity.
Qed.

Lemma webproxyRevocationList_trace :
  trace (webproxyRevocationList options h s) =
    [Ev (DownloadWebProxyCertificateCRL
           (fileName options) (trustedClientID options))].
Proof.
  unfold webproxyRevocationList. run_cmd.
  destruct (fst (h _ (DownloadWebProxyCertificateCRL _ _) s)); reflexivity.
Qed.

(** Each handler hands the error of its remote call back to the
    closure that called it. *)
Lemma extenderCAList_error e s1 :
  h _ (ExtenderCACertificates (accessGroupID options)) s = (Err e, s1) ->
  value (extenderCAList options h s) = Some e.
Proof. intros E. unfold extenderCAList. run_cmd. now rewrite E. Qed.

Lemma caListCmd_RunE_nil :
  recognized ca_tokens (clientType options) = true ->
  value (caListCmd_RunE options h s) = None.
Proof.
  intros Htok. apply recognized_ca_tokens in Htok.
  unfold caListCmd_RunE. destruct Htok as [E|E]; rewrite E; reflexivity.
Qed.

Lemma caShowCmd_RunE_nil :
  recognized ca_tokens (clientType options) = true ->
  value (caShowCmd_RunE options h s) = None.
Proof.
  intros Htok. apply recognized_ca_tokens in Htok.
  unfold caShowCmd_RunE. destruct Htok as [E|E]; rewrite E; reflexivity.
Qed.

Lemma revocationListCmd_RunE_nil :
  recognized ca_tokens (clientType options) = true ->
  value (revocationListCmd_RunE options h s) = None.
Proof.
  intros Htok. apply recognized_ca_tokens in Htok.
  unfold revocationListCmd_RunE.
  destruct Htok as [E|E]; rewrite E; reflexivity.
Qed.

Lemma preconfigurationDownloadSwitch_nil :
  recognized client_tokens (clientType options) = true ->
  value (preconfigurationDownloadSwitch options h s) = None.
Proof.
  intros Htok. apply recognized_client_tokens in Htok.
  unfold preconfigurationDownloadSwitch.
  destruct Htok as [E|[E|E]]; rewrite E; reflexivity.
Qed.

End Dispatch.

(** C1: what the code does where the claim asks for the error.  With a
    recognised token the closures of list-ca, show-ca and show-crl and
    the switch of pre-config return [nil], whatever the remote operation
    answered: the error a handler returns is dropped by its caller. *)
Theorem remote_error_dropped :
  forall St (h : handler St) (s : St) (options : trustedClientOptions),
    (recognized ca_tokens (clientType options) = true ->
       value (caListCmd_RunE options h s) = None
       /\ value (caShowCmd_RunE options h s) = None
       /\ value (revocationListCmd_RunE options h s) = None)
    /\ (recognized client_tokens (clientType options) = true ->
       value (preconfigurationDownloadSwitch options h s) = None).
Proof.
  intros St h s options. split.
  - intros Htok. split; [|split].
    + now apply caListCmd_RunE_nil.
    + now apply caShowCmd_RunE_nil.
    + now apply revocationListCmd_RunE_nil.
  - apply preconfigurationDownloadSwitch_nil.
Qed.

(** [list-ca --type extender --group-id secret] against a service that
    answers 403: the handler reports the error, the command does not. *)
Lemma remote_error_dropped_witness :
  let argv := [("type", "extender"); ("group-id", "secret")] in
  let options :=
    set_accessGroupID "secret"
      (set_clientType "extender" trustedClientOptions_zero) in
  parseFlags (Flags (@caListCmd (list string))) argv trustedClientOptions_zero
    = Ok options
  /\ value (extenderCAList options demo []) = Some forbidden
  /\ value (Execute caListCmd argv demo []) = None
  /\ value (preconfigurationDownloadSwitch
              (set_clientType "carrier" trustedClientOptions_zero) down tt)
     = None.
Proof.
  cbv zeta. split; [reflexivity|]. split; [reflexivity|]. split.
  - apply (remote_error_dropped _ demo []
             (set_accessGroupID "secret"
                (set_clientType "extender" trustedClientOptions_zero))).
    reflexivity.
  - apply (remote_error_dropped _ down tt
             (set_clientType "carrier" trustedClientOptions_zero)).
    reflexivity.
Defined.

(** The input on which [trusted-clients list] departs from C2: with the token
    [bogus] the listing is still requested from the service; when the
    service is down the command reports the service's error and not the
    unknown token. *)
Lemma unrecognized_token_reaches_service :
  let argv := [("type", "bogus")] in
  recognized client_tokens "bogus" = false
  /\ remote_calls (trace (Execute trustedClientListCmd argv demo []))
     = [Ev TrustedClients]
  /\ remote_calls (trace (Execute trustedClientListCmd argv demo [])) <> []
  /\ value (Execute trustedClientListCmd argv down tt) = Some unavailable.
Proof.
  cbv zeta. repeat split; try reflexivity. discriminate.
Qed.

(** C2: what the dispatchers do with an unrecognised token.  list-ca,
    show-ca, show-crl and pre-config return the error of their [default]
    branch without a single call and without touching the service, as
    the claim asks.  [trusted-clients list] does not: by the time it
    looks at the token it has made its one call, [TrustedClients]; it
    then returns the [default] error if that call succeeded and the
    call's own error if it did not, printing nothing in either case. *)
Theorem unrecognized_token_dispatch :
  forall St (h : handler St) (s : St) (options : trustedClientOptions),
    let t := clientType options in
    let rejected :=
      {| value := Some (errNoSuchType t); final := s; trace := [] |} in
    (recognized ca_tokens t = false ->
       caListCmd_RunE options h s = rejected
       /\ caShowCmd_RunE options h s = rejected
       /\ revocationListCmd_RunE options h s = rejected)
    /\ (recognized client_tokens t = false ->
       preconfigurationDownloadSwitch options h s = rejected
       /\ trustedClientList options h s =
            {| value :=
                 match fst (h _ TrustedClients s) with
                 | Ok _ => Some (errNoSuchType t)
                 | Err e => Some e
                 end;
               final := snd (h _ TrustedClients s);
               trace := [Ev TrustedClients] |}).
Proof.
  intros St h s options t rejected. subst t rejected. split.
  - intros Hno. apply unrecognized_ca_tokens in Hno as (E1 & E2).
    unfold caListCmd_RunE, caShowCmd_RunE, revocationListCmd_RunE.
    rewrite E1, E2. repeat split.
  - intros Hno. split.
    + apply unrecognized_client_tokens in Hno as (E1 & E2 & E3).
      unfold preconfigurationDownloadSwitch. now rewrite E1, E2, E3.
    + destruct (h _ TrustedClients s) as [[res|e] s1] eqn:Hres.
      * now rewrite (trustedClientList_unrecognized h s s1 res options).
      * now rewrite (trustedClientList_failed h s s1 e options).
Qed.

Lemma unrecognized_token_dispatch_witness :
  let options := set_clientType "carrier" trustedClientOptions_zero in
  let bogus := set_clientType "bogus" trustedClientOptions_zero in
  caListCmd_RunE options demo ["r1"] =
    {| value := Some (Errorf "client type does not exist: carrier");
       final := ["r1"]; trace := [] |}
  /\ preconfigurationDownloadSwitch bogus demo ["r1"] =
    {| value := Some (Errorf "client type does not exist: bogus");
       final := ["r1"]; trace := [] |}
  /\ trustedClientList bogus demo ["r1"] =
    {| value := Some (Errorf "client type does not exist: bogus");
       final := ["r1"]; trace := [Ev TrustedClients] |}.
Proof.
  cbv zeta. split; [|split].
  - apply (unrecognized_token_dispatch _ demo ["r1"]
             (set_clientType "carrier" trustedClientOptions_zero)).
    reflexivity.
  - apply (unrecognized_token_dispatch _ demo ["r1"]
             (set_clientType "bogus" trustedClientOptions_zero)).
    reflexivity.
  - apply (unrecognized_token_dispatch _ demo ["r1"]
             (set_clientType "bogus" trustedClientOptions_zero)).
    reflexivity.
Defined.

(** ** The client ID of show-ca and show-crl *)

(** No flag of show-ca or show-crl stores into [trustedClientID]. *)
Lemma caShow_flags_keep_trustedClientID {St} argv o0 o :
  parseFlags (Flags (@caShowCmd St)) argv o0 = Ok o ->
  trustedClientID o = trustedClientID o0.
Proof.
  revert o0. induction argv as [|[name v] rest IH]; intros o0;
    cbn [parseFlags]; unfold lookupFlag;
    cbn [Flags caShowCmd find flag_name flag_store].
  - now intros [= ->].
  - destruct ("client-id" =? name).
    + intros Hp. now rewrite (IH _ Hp).
    + destruct ("type" =? name); [|discriminate].
      intros Hp. now rewrite (IH _ Hp).
Qed.

Lemma revocationList_flags_keep_trustedClientID {St} argv o0 o :
  parseFlags (Flags (@revocationListCmd St)) argv o0 = Ok o ->
  trustedClientID o = trustedClientID o0.
Proof.
  revert o0. induction argv as [|[name v] rest IH]; intros o0;
    cbn [parseFlags]; unfold lookupFlag;
    cbn [Flags revocationListCmd find flag_name flag_store].
  - now intros [= ->].
  - destruct ("client-id" =? name).
    + intros Hp. now rewrite (IH _ Hp).
    + destruct ("name" =? name).
      * intros Hp. now rewrite (IH _ Hp).
      * destruct ("type" =? name); [|discriminate].
        intros Hp. now rewrite (IH _ Hp).
Qed.

Section ShowDispatch.
Context {St : Type}.
Variables (h : handler St) (s : St) (o : trustedClientOptions).

Lemma caShowCmd_RunE_extender :
  clientType o = "extender" ->
  remote_calls (trace (caShowCmd_RunE o h s)) =
    [Ev (ExtenderCACertificate (trustedClientID o))].
Proof.
  intros E. unfold caShowCmd_RunE. rewrite E.
  change ("extender" =? "extender") with true. cbv iota.
  rewrite bind_run, ret_run. cbn [trace]. rewrite app_nil_r.
  apply extenderCAShow_remote.
Qed.

Lemma caShowCmd_RunE_webproxy :
  clientType o = "webproxy" ->
  remote_calls (trace (caShowCmd_RunE o h s)) =
    [Ev (WebProxyCACertificate (trustedClientID o))].
Proof.
  intros E. unfold caShowCmd_RunE. rewrite E.
  change ("webproxy" =? "extender") with false.
  change ("webproxy" =? "webproxy") with true. cbv iota.
  rewrite bind_run, ret_run. cbn [trace]. rewrite app_nil_r.
  apply webproxyCAShow_remote.
Qed.

Lemma caShowCmd_RunE_remote :
  let t := remote_calls (trace (caShowCmd_RunE o h s)) in
  t = [] \/ t = [Ev (ExtenderCACertificate (trustedClientID o))]
  \/ t = [Ev (WebProxyCACertificate (trustedClientID o))].
Proof.
  cbv zeta.
  destruct (String.eqb_spec (clientType o) "extender") as [E|N1];
    [right; left; now apply caShowCmd_RunE_extender|].
  destruct (String.eqb_spec (clientType o) "webproxy") as [E|N2];
    [right; right; now apply caShowCmd_RunE_webproxy|].
  left. unfold caShowCmd_RunE.
  apply String.eqb_neq in N1, N2. now rewrite N1, N2.
Qed.

Lemma revocationListCmd_RunE_extender :
  clientType o = "extender" ->
  remote_calls (trace (revocationListCmd_RunE o h s)) =
    [Ev (DownloadExtenderCertificateCRL (fileName o) (trustedClientID o))].
Proof.
  intros E. unfold revocationListCmd_RunE. rewrite E.
  change ("extender" =? "extender") with true. cbv iota.
  rewrite bind_run, ret_run. cbn [trace].
  now rewrite app_nil_r, extenderRevocationList_trace.
Qed.

Lemma revocationListCmd_RunE_webproxy :
  clientType o = "webproxy" ->
  remote_calls (trace (revocationListCmd_RunE o h s)) =
    [Ev (DownloadWebProxyCertificateCRL (fileName o) (trustedClientID o))].
Proof.
  intros E. unfold revocationListCmd_RunE. rewrite E.
  change ("webproxy" =? "extender") with false.
  change ("webproxy" =? "webproxy") with true. cbv iota.
  rewrite bind_run, ret_run. cbn [trace].
  now rewrite app_nil_r, webproxyRevocationList_trace.
Qed.

Lemma revocationListCmd_RunE_remote :
  let t := remote_calls (trace (revocationListCmd_RunE o h s)) in
  t = []
  \/ t = [Ev (DownloadExtenderCertificateCRL
                (fileName o) (trustedClientID o))]
  \/ t = [Ev (DownloadWebProxyCertificateCRL
                (fileName o) (trustedClientID o))].
Proof.
  cbv zeta.
  destruct (String.eqb_spec (clientType o) "extender") as [E|N1];
    [right; left; now apply revocationListCmd_RunE_extender|].
  destruct (String.eqb_spec (clientType o) "webproxy") as [E|N2];
    [right; right; now apply revocationListCmd_RunE_webproxy|].
  left. unfold revocationListCmd_RunE.
  apply String.eqb_neq in N1, N2. now rewrite N1, N2.
Qed.

End ShowDispatch.

(** C3: whatever the command line, the client ID that show-ca and
    show-crl pass to the service is the empty string.  [--client-id] is
    bound to [extenderID]; the handlers read [trustedClientID], which no
    flag of these two commands stores into.  In particular a complete
    command line [--client-id cid --type extender|webproxy] makes exactly
    one remote call, with the ID [""] in place of [cid]. *)
Theorem show_ca_crl_client_id_empty :
  forall St (h : handler St) (s : St),
    (forall argv,
        let t := remote_calls (trace (Execute caShowCmd argv h s)) in
        t = [] \/ t = [Ev (ExtenderCACertificate "")]
        \/ t = [Ev (WebProxyCACertificate "")])
    /\ (forall argv,
        let t := remote_calls (trace (Execute revocationListCmd argv h s)) in
        t = []
        \/ (exists file, t = [Ev (DownloadExtenderCertificateCRL file "")])
        \/ (exists file, t = [Ev (DownloadWebProxyCertificateCRL file "")]))
    /\ (forall cid,
        remote_calls (trace (Execute caShowCmd
          [("client-id", cid); ("type", "extender")] h s))
        = [Ev (ExtenderCACertificate "")]
        /\ remote_calls (trace (Execute caShowCmd
          [("client-id", cid); ("type", "webproxy")] h s))
        = [Ev (WebProxyCACertificate "")])
    /\ (forall cid file,
        remote_calls (trace (Execute revocationListCmd
          [("client-id", cid); ("name", file); ("type", "extender")] h s))
        = [Ev (DownloadExtenderCertificateCRL file "")]
        /\ remote_calls (trace (Execute revocationListCmd
          [("client-id", cid); ("name", file); ("type", "webproxy")] h s))
        = [Ev (DownloadWebProxyCertificateCRL file "")]).
Proof.
  intros St h s. split; [|split; [|split]].
  - intros argv. cbv zeta. unfold Execute.
    destruct (parseFlags _ argv _) as [o|e] eqn:Hp; [|now left].
    apply caShow_flags_keep_trustedClientID in Hp. cbn in Hp.
    destruct (missingFlags _ argv); [|now left].
    cbn [RunE caShowCmd].
    pose proof (caShowCmd_RunE_remote h s o) as Hr. cbv zeta in Hr.
    now rewrite Hp in Hr.
  - intros argv. cbv zeta. unfold Execute.
    destruct (parseFlags _ argv _) as [o|e] eqn:Hp; [|now left].
    apply revocationList_flags_keep_trustedClientID in Hp. cbn in Hp.
    destruct (missingFlags _ argv); [|now left].
    cbn [RunE revocationListCmd].
    pose proof (revocationListCmd_RunE_remote h s o) as Hr. cbv zeta in Hr.
    rewrite Hp in Hr. destruct Hr as [Hr|[Hr|Hr]]; eauto.
  - intros cid. split.
    + exact (caShowCmd_RunE_extender h s
               (set_clientType "extender"
                  (set_extenderID cid trustedClientOptions_zero)) eq_refl).
    + exact (caShowCmd_RunE_webproxy h s
               (set_clientType "webproxy"
                  (set_extenderID cid trustedClientOptions_zero)) eq_refl).
  - intros cid file. split.
    + exact (revocationListCmd_RunE_extender h s
               (set_clientType "extender"
                  (set_fileName file
                     (set_extenderID cid trustedClientOptions_zero)))
               eq_refl).
    + exact (revocationListCmd_RunE_webproxy h s
               (set_clientType "webproxy"
                  (set_fileName file
                     (set_extenderID cid trustedClientOptions_zero)))
               eq_refl).
Qed.

(** ** The two-step download *)

Lemma downloadExtenderPreConf_two_step {St} :
  @two_step St ExtenderConfigDownloadHandle DownloadExtenderConfig
    downloadExtenderPreConf.
Proof.
  intros h s options id. split.
  - intros e s1 E. unfold downloadExtenderPreConf.
    rewrite bind_run, call_run. fold id. now rewrite E.
  - intros hd s1 r s2 E1 E2. unfold downloadExtenderPreConf.
    rewrite bind_run, call_run. fold id. rewrite E1.
    cbn [value final trace fst snd].
    rewrite bind_run, call_run, E2. cbn [value final trace fst snd].
    now destruct r.
Qed.

Lemma downloadWebProxyPreConf_two_step {St} :
  @two_step St WebProxySessionDownloadHandle DownloadWebProxyConfig
    downloadWebProxyPreConf.
Proof.
  intros h s options id. split.
  - intros e s1 E. unfold downloadWebProxyPreConf.
    rewrite bind_run, call_run. fold id. now rewrite E.
  - intros hd s1 r s2 E1 E2. unfold downloadWebProxyPreConf.
    rewrite bind_run, call_run. fold id. rewrite E1.
    cbn [value final trace fst snd].
    rewrite bind_run, call_run, E2. cbn [value final trace fst snd].
    now destruct r.
Qed.

Lemma downloadCarrierPreConf_two_step {St} :
  @two_step St CarrierConfigDownloadHandle DownloadCarrierConfig
    downloadCarrierPreConf.
Proof.
  intros h s options id. split.
  - intros e s1 E. unfold downloadCarrierPreConf.
    rewrite bind_run, call_run. fold id. now rewrite E.
  - intros hd s1 r s2 E1 E2. unfold downloadCarrierPreConf.
    rewrite bind_run, call_run. fold id. rewrite E1.
    cbn [value final trace fst snd].
    rewrite bind_run, call_run, E2. cbn [value final trace fst snd].
    now destruct r.
Qed.

(** The switch of pre-config performs the calls of the download it
    selects, and no other. *)
Lemma preconfigurationDownloadSwitch_trace {St} (h : handler St) s options :
  (clientType options = "extender" ->
     trace (preconfigurationDownloadSwitch options h s)
     = trace (downloadExtenderPreConf options h s))
  /\ (clientType options = "webproxy" ->
     trace (preconfigurationDownloadSwitch options h s)
     = trace (downloadWebProxyPreConf options h s))
  /\ (clientType options = "carrier" ->
     trace (preconfigurationDownloadSwitch options h s)
     = trace (downloadCarrierPreConf options h s)).
Proof.
  unfold preconfigurationDownloadSwitch.
  split; [|split]; intros E; rewrite E.
  - change ("extender" =? "extender") with true. cbv iota.
    rewrite bind_run, ret_run. cbn [trace]. apply app_nil_r.
  - change ("webproxy" =? "extender") with false.
    change ("webproxy" =? "webproxy") with true. cbv iota.
    rewrite bind_run, ret_run. cbn [trace]. apply app_nil_r.
  - change ("carrier" =? "extender") with false.
    change ("carrier" =? "webproxy") with false.
    change ("carrier" =? "carrier") with true. cbv iota.
    rewrite bind_run, ret_run. cbn [trace]. apply app_nil_r.
Qed.

(** C8: the two steps, and what becomes of their errors.  Each of the
    three downloads asks for the handle of the client first; if that
    fails it returns the error after that single call; if it succeeds it
    calls the download once, with the same client ID, the session ID of
    the handle and the file name, and returns what the download
    returned.  The pre-config command makes exactly these calls, in
    this order and never twice, for the type it was given, but it does
    not return the error of a failed step: it returns nil, whichever
    step failed. *)
Theorem preconfiguration_step_error_dropped :
  forall St,
    (@two_step St ExtenderConfigDownloadHandle DownloadExtenderConfig
       downloadExtenderPreConf
     /\ @steps_then_nil St "extender"
          ExtenderConfigDownloadHandle DownloadExtenderConfig)
    /\ (@two_step St WebProxySessionDownloadHandle DownloadWebProxyConfig
          downloadWebProxyPreConf
        /\ @steps_then_nil St "webproxy"
             WebProxySessionDownloadHandle DownloadWebProxyConfig)
    /\ (@two_step St CarrierConfigDownloadHandle DownloadCarrierConfig
          downloadCarrierPreConf
        /\ @steps_then_nil St "carrier"
             CarrierConfigDownloadHandle DownloadCarrierConfig).
Proof.
  intros St. split; [|split]; split.
  - apply downloadExtenderPreConf_two_step.
  - intros h s options id Htok.
    pose proof (downloadExtenderPreConf_two_step h s options) as Hf.
    cbv zeta in Hf. fold id in Hf. destruct Hf as [Hfail Hok].
    unfold preconfigurationDownloadSwitch. rewrite Htok.
    change ("extender" =? "extender") with true. cbv iota.
    rewrite bind_run, ret_run. split.
    + intros e s1 E. rewrite (Hfail e s1 E). reflexivity.
    + intros hd s1 r s2 E1 E2. rewrite (Hok hd s1 r s2 E1 E2). reflexivity.
  - apply downloadWebProxyPreConf_two_step.
  - intros h s options id Htok.
    pose proof (downloadWebProxyPreConf_two_step h s options) as Hf.
    cbv zeta in Hf. fold id in Hf. destruct Hf as [Hfail Hok].
    unfold preconfigurationDownloadSwitch. rewrite Htok.
    change ("webproxy" =? "extender") with false.
    change ("webproxy" =? "webproxy") with true. cbv iota.
    rewrite bind_run, ret_run. split.
    + intros e s1 E. rewrite (Hfail e s1 E). reflexivity.
    + intros hd s1 r s2 E1 E2. rewrite (Hok hd s1 r s2 E1 E2). reflexivity.
  - apply downloadCarrierPreConf_two_step.
  - intros h s options id Htok.
    pose proof (downloadCarrierPreConf_two_step h s options) as Hf.
    cbv zeta in Hf. fold id in Hf. destruct Hf as [Hfail Hok].
    unfold preconfigurationDownloadSwitch. rewrite Htok.
    change ("carrier" =? "extender") with false.
    change ("carrier" =? "webproxy") with false.
    change ("carrier" =? "carrier") with true. cbv iota.
    rewrite bind_run, ret_run. split.
    + intros e s1 E. rewrite (Hfail e s1 E). reflexivity.
    + intros hd s1 r s2 E1 E2. rewrite (Hok hd s1 r s2 E1 E2). reflexivity.
Qed.

(** [pre-config --client-id x9 --type carrier --name c.toml]: the
    service knows no client [x9]; the download reports 404, the command
    reports success.  With the service down and a known client, the same
    for [extender]. *)
Lemma preconfiguration_step_error_dropped_witness :
  let argv T :=
    [("client-id", "x9"); ("type", T); ("name", "c.toml")] in
  let options T :=
    set_fileName "c.toml"
      (set_clientType T
         (set_trustedClientID "x9" trustedClientOptions_zero)) in
  downloadCarrierPreConf (options "carrier") demo [] =
    {| value := Some notFound; final := [];
       trace := [Ev (CarrierConfigDownloadHandle "x9")] |}
  /\ Execute preconfigurationDownloadCmd (argv "carrier") demo [] =
    {| value := None; final := [];
       trace := [Ev (CarrierConfigDownloadHandle "x9")] |}
  /\ Execute preconfigurationDownloadCmd (argv "extender") down tt =
    {| value := None; final := tt;
       trace := [Ev (ExtenderConfigDownloadHandle "x9")] |}.
Proof.
  cbv zeta beta.
  destruct (preconfiguration_step_error_dropped (list string))
    as (_ & _ & Hcar & Hcmd).
  destruct (preconfiguration_step_error_dropped unit)
    as ((_ & Hext) & _).
  split; [|split].
  - apply (proj1 (Hcar demo []
             (set_fileName "c.toml"
                (set_clientType "carrier"
                   (set_trustedClientID "x9" trustedClientOptions_zero))))
             notFound []).
    reflexivity.
  - apply (proj1 (Hcmd demo []
             (set_fileName "c.toml"
                (set_clientType "carrier"
                   (set_trustedClientID "x9" trustedClientOptions_zero)))
             eq_refl) notFound []).
    reflexivity.
  - apply (proj1 (Hext down tt
             (set_fileName "c.toml"
                (set_clientType "extender"
                   (set_trustedClientID "x9" trustedClientOptions_zero)))
             eq_refl) unavailable tt).
    reflexivity.
Defined.

(** ** Batch operations on roles *)

Section Batch.
Context {St : Type}.
Variable h : handler St.

Lemma roleDelete_range_app pre post s s1 :
  deletes_ok h pre s s1 ->
  roleDelete_range (pre ++ post) h s =
    {| value := value (roleDelete_range post h s1);
       final := final (roleDelete_range post h s1);
       trace := deleted pre ++ trace (roleDelete_range post h s1) |}.
Proof.
  induction 1 as [s|id rest s s1 s2 s3 Hdel Hecho _ IH].
  - cbn. now destruct (roleDelete_range post h s).
  - cbn [app roleDelete_range].
    rewrite bind_run, call_run, Hdel. cbn [value final trace fst snd].
    rewrite bind_run, call_run, Hecho. cbn [value final trace fst snd].
    rewrite IH. reflexivity.
Qed.

Lemma roleDelete_range_fails b post s e s1 :
  h _ (DeleteRole b) s = (Some e, s1) ->
  roleDelete_range (b :: post) h s =
    {| value := Some e; final := s1; trace := [Ev (DeleteRole b)] |}.
Proof.
  intros Hdel. cbn [roleDelete_range].
  rewrite bind_run, call_run, Hdel. reflexivity.
Qed.

Lemma roleDelete_range_all ids s s1 :
  deletes_ok h ids s s1 ->
  roleDelete_range ids h s =
    {| value := None; final := s1; trace := deleted ids |}.
Proof.
  intros Hok. rewrite <- (app_nil_r ids) at 1.
  rewrite (roleDelete_range_app ids [] s s1 Hok). cbn.
  now rewrite app_nil_r.
Qed.

Lemma roleMemberList_range_ok roles s ms s1 :
  members_ok h roles s ms s1 ->
  forall members,
    roleMemberList_range roles members h s =
      {| value := Ok (members ++ concat ms); final := s1;
         trace := map (fun role => Ev (GetRoleMembers role)) roles |}.
Proof.
  induction 1 as [s|role rest s s1 s2 m ms Hget _ IH]; intros members.
  - cbn. now rewrite app_nil_r.
  - cbn [roleMemberList_range].
    rewrite bind_run, call_run, Hget. cbn [value final trace fst snd].
    rewrite IH. cbn. now rewrite app_assoc.
Qed.

Lemma roleDelete_single_remote id s :
  remote_calls (trace (roleDelete_range [id] h s)) = [Ev (DeleteRole id)].
Proof.
  cbn [roleDelete_range]. rewrite bind_run, call_run.
  cbn [value final trace].
  destruct (fst (h _ (DeleteRole id) s)); [reflexivity|].
  rewrite bind_run, call_run. reflexivity.
Qed.

Lemma roleMemberList_single_remote o s :
  strings.Split (roleID o) "," = [roleID o] ->
  remote_calls (trace (roleMemberList o h s)) =
    [Ev (GetRoleMembers (roleID o))].
Proof.
  intros E. unfold roleMemberList. rewrite E.
  cbn [roleMemberList_range].
  rewrite !bind_run, call_run. cbn [value final trace].
  destruct (fst (h _ (GetRoleMembers (roleID o)) s)).
  - rewrite ret_run. cbn [value final trace].
    rewrite call_run. reflexivity.
  - rewrite !ret_run. reflexivity.
Qed.

End Batch.

(** C6: the IDs are handled in the order in which they stand between
    the commas, one request at a time.  When they split into [pre], [b]
    and [post], the service accepts every deletion of [pre] and refuses
    that of [b] with [e], then roles delete returns [e]; its calls are,
    in order, the deletion and the echo of each ID of [pre] followed by
    the one refused request for [b]; nothing is requested for [post],
    nothing is undone, and the service is left in the state the request
    for [b] left it in.  When every deletion is accepted the command
    returns nil after the deletion and the echo of each ID. *)
Theorem roleDelete_stops_at_first_failure :
  forall St (h : handler St) (options : roleOptions) (s s1 : St),
    (forall (pre post : list string) (b : string) (e : error) (s2 : St),
        strings.Split (roleID options) "," = pre ++ b :: post ->
        deletes_ok h pre s s1 ->
        h _ (DeleteRole b) s1 = (Some e, s2) ->
        roleDelete options h s =
          {| value := Some e; final := s2;
             trace := deleted pre ++ [Ev (DeleteRole b)] |})
    /\ (deletes_ok h (strings.Split (roleID options) ",") s s1 ->
        roleDelete options h s =
          {| value := None; final := s1;
             trace := deleted (strings.Split (roleID options) ",") |}).
Proof.
  intros St h options s s1. split.
  - intros pre post b e s2 Hsplit Hpre Hb.
    unfold roleDelete. rewrite Hsplit.
    rewrite (roleDelete_range_app h pre (b :: post) s s1 Hpre).
    now rewrite (roleDelete_range_fails h b post s1 e s2 Hb).
  - intros Hall. unfold roleDelete. now apply roleDelete_range_all.
Qed.

(** [--id a,b,c] with roles [a] and [c] existing: [a] is deleted and
    echoed, [b] is refused, [c] is still there. *)
Lemma roleDelete_stops_at_first_failure_witness :
  roleDelete (set_roleID "a,b,c" roleOptions_zero) demo ["a"; "c"] =
    {| value := Some notFound; final := ["c"];
       trace := [Ev (DeleteRole "a"); Ev (Println "a");
                 Ev (DeleteRole "b")] |}
  /\ roleDelete (set_roleID "c,a" roleOptions_zero) demo ["a"; "c"] =
    {| value := None; final := [];
       trace := [Ev (DeleteRole "c"); Ev (Println "c");
                 Ev (DeleteRole "a"); Ev (Println "a")] |}.
Proof.
  split.
  - apply (proj1 (roleDelete_stops_at_first_failure _ demo
             (set_roleID "a,b,c" roleOptions_zero) ["a"; "c"] ["c"])
             ["a"] ["c"] "b" notFound ["c"]).
    + reflexivity.
    + apply (deletes_cons demo "a" [] ["a"; "c"] ["c"] ["c"] ["c"]);
        [reflexivity | reflexivity | apply deletes_nil].
    + reflexivity.
  - apply (proj2 (roleDelete_stops_at_first_failure _ demo
             (set_roleID "c,a" roleOptions_zero) ["a"; "c"] [])).
    apply (deletes_cons demo "c" ["a"] ["a"; "c"] ["a"] ["a"] []);
      [reflexivity | reflexivity |].
    apply (deletes_cons demo "a" [] ["a"] [] [] []);
      [reflexivity | reflexivity | apply deletes_nil].
Defined.

(** C7: when the member lookup succeeds for every ID of the list, roles
    members asks for the members of each ID in turn and prints one flat
    sequence: the sequences returned, concatenated in the order of the
    IDs, each as the service returned it, duplicates included.  The
    command returns what [stdout] returns. *)
Theorem roleMemberList_concatenates :
  forall St (h : handler St) (options : roleOptions)
         (ms : list (list rolestore.User)) (s s1 : St),
    members_ok h (strings.Split (roleID options) ",") s ms s1 ->
    let printed := stdout (VUsers (concat ms)) in
    roleMemberList options h s =
      {| value := fst (h _ printed s1); final := snd (h _ printed s1);
         trace :=
           map (fun role => Ev (GetRoleMembers role))
             (strings.Split (roleID options) ",")
           ++ [Ev printed] |}.
Proof.
  intros St h options ms s s1 Hok printed. subst printed.
  unfold roleMemberList.
  rewrite bind_run, (roleMemberList_range_ok h _ s ms s1 Hok []).
  cbn [value final trace app]. now rewrite call_run.
Qed.

(** [--id r1,r2]: [bob] is a member of both roles and is printed
    twice. *)
Lemma roleMemberList_concatenates_witness :
  roleMemberList (set_roleID "r1,r2" roleOptions_zero) demo [] =
    {| value := None; final := [];
       trace := [Ev (GetRoleMembers "r1"); Ev (GetRoleMembers "r2");
                 Ev (stdout (VUsers [alice; bob; bob; carol]))] |}.
Proof.
  apply (roleMemberList_concatenates _ demo
           (set_roleID "r1,r2" roleOptions_zero)
           [[alice; bob]; [bob; carol]] [] []).
  apply (members_cons demo "r1" ["r2"] [] [] [] [alice; bob]
           [[bob; carol]]); [reflexivity|].
  apply (members_cons demo "r2" [] [] [] [] [bob; carol] []);
    [reflexivity | apply members_nil].
Defined.

(** C10: [Split] never returns the empty slice, and on the empty string
    it returns the one token [""]; so roles delete and roles members
    given [--id ""] make exactly one remote call, for the role [""] . *)
Theorem empty_id_makes_one_call :
  (forall s sep, 1 <= length (strings.Split s sep))
  /\ strings.Split "" "," = [""]
  /\ (forall St (h : handler St) (s : St),
        remote_calls (trace (Execute roleDeleteCmd [("id", "")] h s))
        = [Ev (DeleteRole "")]
        /\ remote_calls
             (trace (Execute rolesMemberListCmd [("id", "")] h s))
           = [Ev (GetRoleMembers "")]).
Proof.
  split; [|split].
  - intros s sep. pose proof (Split_nonempty s sep) as Hne.
    destruct (strings.Split s sep); [congruence | cbn; lia].
  - reflexivity.
  - intros St h s. split.
    + exact (roleDelete_single_remote h "" s).
    + exact (roleMemberList_single_remote h
               (set_roleID "" roleOptions_zero) s eq_refl).
Qed.

(** * Further properties of the two files *)

(** ** More on the trusted-client filter *)

(** X1: the filter works client by client: filtering a listing received in
    two parts gives the two filtered parts in sequence, and the result is
    never longer than the listing. *)
Theorem trustedClientListHelper_app :
  forall (L1 L2 : list userstore.TrustedClient) (c : string),
    trustedClientListHelper (L1 ++ L2) c
    = trustedClientListHelper L1 c ++ trustedClientListHelper L2 c
    /\ length (trustedClientListHelper L1 c) <= length L1.
Proof.
  intros L1 L2 c. rewrite !helper_is_filter. split.
  - apply filter_app.
  - apply filter_length_le.
Qed.

(** X2: two different categories select disjoint parts of a listing: nothing
    that passes the filter for [c1] passes it for [c2]. *)
Theorem trustedClientListHelper_disjoint :
  forall (L : list userstore.TrustedClient) (c1 c2 : string),
    c1 <> c2 ->
    trustedClientListHelper (trustedClientListHelper L c1) c2 = [].
Proof.
  intros L c1 c2 Hne. rewrite !helper_is_filter.
  apply filter_none. intros x Hx.
  apply filter_In in Hx as [_ Hx]. apply String.eqb_eq in Hx.
  apply String.eqb_neq. congruence.
Qed.

Lemma trustedClientListHelper_disjoint_witness :
  trustedClientListHelper (trustedClientListHelper demo_clients "ICAP")
    "WEBPROXY" = [].
Proof.
  apply (trustedClientListHelper_disjoint demo_clients "ICAP" "WEBPROXY").
  discriminate.
Defined.

(** ** trusted-clients list, for every token and every service *)

(** The categories [trusted-clients list] can ask the filter for. *)
Lemma listed_categories (t : string) :
  recognized client_tokens t = true ->
  In (spec_normalize t) ["EXTENDER"; "ICAP"; "CARRIER"].
Proof.
  intros Ht. apply recognized_client_tokens in Ht.
  destruct Ht as [E|[E|E]]; rewrite E; cbn; tauto.
Qed.

(** X3: [trusted-clients list] makes one remote call, the listing, whatever
    the token.  If the listing fails, its error is returned and nothing
    is printed.  If it succeeds, the command prints at most once, and
    what it prints is a subsequence of the listing whose clients all
    have type EXTENDER, ICAP or CARRIER: a client of any other type
    (WEBPROXY included) is shown under no token. *)
Theorem trustedClientList_shape :
  forall St (h : handler St) (s : St) (options : trustedClientOptions),
    let run := trustedClientList options h s in
    remote_calls (trace run) = [Ev TrustedClients]
    /\ (forall e s1,
          h _ TrustedClients s = (Err e, s1) ->
          run = {| value := Some e; final := s1;
                   trace := [Ev TrustedClients] |})
    /\ (forall res s1,
          h _ TrustedClients s = (Ok res, s1) ->
          trace run = [Ev TrustedClients]
          \/ exists shown,
              trace run = [Ev TrustedClients; Ev (stdout (VClients shown))]
              /\ Subseq shown res
              /\ Forall
                   (fun x =>
                      In (userstore.Type_ x) ["EXTENDER"; "ICAP"; "CARRIER"])
                   shown).
Proof.
  intros St h s options run. subst run.
  assert (Hok : forall res s1,
             h _ TrustedClients s = (Ok res, s1) ->
             trace (trustedClientList options h s) = [Ev TrustedClients]
             \/ exists shown,
                 trace (trustedClientList options h s)
                 = [Ev TrustedClients; Ev (stdout (VClients shown))]
                 /\ Subseq shown res
                 /\ Forall
                      (fun x =>
                         In (userstore.Type_ x)
                           ["EXTENDER"; "ICAP"; "CARRIER"]) shown).
  { intros res s1 Hres.
    destruct (recognized client_tokens (clientType options)) eqn:Htok.
    - right.
      exists (trustedClientListHelper res
                (spec_normalize (clientType options))).
      rewrite (trustedClientList_recognized h s s1 res options Hres Htok).
      split; [reflexivity|]. rewrite helper_is_filter. split.
      + apply filter_Subseq.
      + apply Forall_forall. intros x Hx.
        apply filter_In in Hx as [_ Hx]. apply String.eqb_eq in Hx.
        rewrite Hx. now apply listed_categories.
    - left.
      now rewrite (trustedClientList_unrecognized h s s1 res options
                     Hres Htok). }
  split; [|split].
  - destruct (h _ TrustedClients s) as [[res|e] s1] eqn:Hres.
    + destruct (Hok res s1 eq_refl) as [-> | (shown & -> & _)];
        reflexivity.
    + now rewrite (trustedClientList_failed h s s1 e options Hres).
  - intros e s1 Hres. now apply trustedClientList_failed.
  - exact Hok.
Qed.

Lemma trustedClientList_shape_witness :
  trustedClientList (set_clientType "carrier" trustedClientOptions_zero)
    down tt
  = {| value := Some unavailable; final := tt;
       trace := [Ev TrustedClients] |}.
Proof.
  apply (trustedClientList_shape _ down tt
           (set_clientType "carrier" trustedClientOptions_zero)).
  reflexivity.
Defined.

(** ** Flags that do reach the service *)

(** X5: [trusted-clients show --client-id cid] asks the service for the
    client [cid] (here the flag is bound to the field the handler
    reads).  A failure is returned as it is and nothing is printed; on
    success the client is printed and the command returns what printing
    returned. *)
Theorem trustedClientShow_by_id :
  forall St (h : handler St) (s : St) (cid : string),
    let run := Execute trustedClientShowCmd [("client-id", cid)] h s in
    (forall e s1,
        h _ (TrustedClient cid) s = (Err e, s1) ->
        run = {| value := Some e; final := s1;
                 trace := [Ev (TrustedClient cid)] |})
    /\ (forall found s1,
        h _ (TrustedClient cid) s = (Ok found, s1) ->
        run = {| value := fst (h _ (stdout (VClient found)) s1);
                 final := snd (h _ (stdout (VClient found)) s1);
                 trace := [Ev (TrustedClient cid);
                           Ev (stdout (VClient found))] |}).
Proof.
  intros St h s cid run. subst run.
  change (Execute trustedClientShowCmd [("client-id", cid)] h s)
    with (trustedClientShow
            (set_trustedClientID cid trustedClientOptions_zero) h s).
  unfold trustedClientShow. cbn [trustedClientID set_trustedClientID].
  split.
  - intros e s1 E. rewrite bind_run, call_run, E. reflexivity.
  - intros found s1 E. rewrite bind_run, call_run, E.
    cbn [value final trace fst snd]. now rewrite call_run.
Qed.

Lemma trustedClientShow_by_id_witness :
  Execute trustedClientShowCmd [("client-id", "c3")] demo [] =
    {| value := None; final := [];
       trace := [Ev (TrustedClient "c3");
                 Ev (stdout (VClient (client "c3" "CARRIER")))] |}
  /\ Execute trustedClientShowCmd [("client-id", "zz")] demo [] =
    {| value := Some notFound; final := [];
       trace := [Ev (TrustedClient "zz")] |}.
Proof.
  split.
  - apply (proj2 (trustedClientShow_by_id _ demo [] "c3")
             (client "c3" "CARRIER") []).
    reflexivity.
  - apply (proj1 (trustedClientShow_by_id _ demo [] "zz") notFound []).
    reflexivity.
Defined.

Section CAList.
Context {St : Type}.
Variables (h : handler St) (s : St) (o : trustedClientOptions).

Lemma extenderCAList_trace :
  trace (extenderCAList o h s) =
    Ev (ExtenderCACertificates (accessGroupID o))
    :: match fst (h _ (ExtenderCACertificates (accessGroupID o)) s) with
       | Ok certificates => [Ev (stdout (VCAs certificates))]
       | Err _ => []
       end.
Proof.
  unfold extenderCAList. rewrite bind_run, call_run.
  cbn [value final trace].
  destruct (fst (h _ (ExtenderCACertificates _) s)).
  - now rewrite call_run.
  - reflexivity.
Qed.

Lemma webproxyCAList_trace :
  trace (webproxyCAList o h s) =
    Ev (WebProxyCACertificates (accessGroupID o))
    :: match fst (h _ (WebProxyCACertificates (accessGroupID o)) s) with
       | Ok certificates => [Ev (stdout (VCAs certificates))]
       | Err _ => []
       end.
Proof.
  unfold webproxyCAList. rewrite bind_run, call_run.
  cbn [value final trace].
  destruct (fst (h _ (WebProxyCACertificates _) s)).
  - now rewrite call_run.
  - reflexivity.
Qed.

Lemma caListCmd_RunE_extender :
  clientType o = "extender" ->
  trace (caListCmd_RunE o h s) = trace (extenderCAList o h s).
Proof.
  intros E. unfold caListCmd_RunE. rewrite E.
  change ("extender" =? "extender") with true. cbv iota.
  rewrite bind_run, ret_run. cbn [trace]. apply app_nil_r.
Qed.

Lemma caListCmd_RunE_webproxy :
  clientType o = "webproxy" ->
  trace (caListCmd_RunE o h s) = trace (webproxyCAList o h s).
Proof.
  intros E. unfold caListCmd_RunE. rewrite E.
  change ("webproxy" =? "extender") with false.
  change ("webproxy" =? "webproxy") with true. cbv iota.
  rewrite bind_run, ret_run. cbn [trace]. apply app_nil_r.
Qed.

End CAList.

(** X6: [list-ca] passes the value of [--group-id] to the service, and the
    empty string when the flag is absent; the type selects between the
    extender and the web-proxy listing.  The certificates are printed
    exactly when the listing succeeded. *)
Theorem caList_group_filter :
  forall St (h : handler St) (s : St) (g : string),
    let printed (r : result (list authorizer.CA)) :=
      match r with
      | Ok certificates => [Ev (stdout (VCAs certificates))]
      | Err _ => []
      end in
    trace (Execute caListCmd [("type", "extender"); ("group-id", g)] h s)
    = Ev (ExtenderCACertificates g)
      :: printed (fst (h _ (ExtenderCACertificates g) s))
    /\ trace (Execute caListCmd [("type", "webproxy"); ("group-id", g)] h s)
    = Ev (WebProxyCACertificates g)
      :: printed (fst (h _ (WebProxyCACertificates g) s))
    /\ trace (Execute caListCmd [("type", "extender")] h s)
    = Ev (ExtenderCACertificates "")
      :: printed (fst (h _ (ExtenderCACertificates "") s))
    /\ trace (Execute caListCmd [("type", "webproxy")] h s)
    = Ev (WebProxyCACertificates "")
      :: printed (fst (h _ (WebProxyCACertificates "") s)).
Proof.
  intros St h s g printed. subst printed.
  split; [|split; [|split]].
  - change (Execute caListCmd [("type", "extender"); ("group-id", g)] h s)
      with (caListCmd_RunE
              (set_accessGroupID g
                 (set_clientType "extender" trustedClientOptions_zero))
              h s).
    rewrite caListCmd_RunE_extender by reflexivity.
    apply extenderCAList_trace.
  - change (Execute caListCmd [("type", "webproxy"); ("group-id", g)] h s)
      with (caListCmd_RunE
              (set_accessGroupID g
                 (set_clientType "webproxy" trustedClientOptions_zero))
              h s).
    rewrite caListCmd_RunE_webproxy by reflexivity.
    apply webproxyCAList_trace.
  - change (Execute caListCmd [("type", "extender")] h s)
      with (caListCmd_RunE
              (set_clientType "extender" trustedClientOptions_zero) h s).
    rewrite caListCmd_RunE_extender by reflexivity.
    apply extenderCAList_trace.
  - change (Execute caListCmd [("type", "webproxy")] h s)
      with (caListCmd_RunE
              (set_clientType "webproxy" trustedClientOptions_zero) h s).
    rewrite caListCmd_RunE_webproxy by reflexivity.
    apply webproxyCAList_trace.
Qed.

(** X7: [pre-config --client-id cid --type T --name file]: the ID given on
    the command line is the one the handle is requested for and the one
    the download is made for, and [file] is the destination, for each of
    the three types. *)
Theorem preconfiguration_flags_reach_service :
  forall St (h : handler St) (s : St) (cid file : string),
    let run T :=
      Execute preconfigurationDownloadCmd
        [("client-id", cid); ("type", T); ("name", file)] h s in
    let options T :=
      set_fileName file
        (set_clientType T
           (set_trustedClientID cid trustedClientOptions_zero)) in
    (trace (run "extender")
       = trace (downloadExtenderPreConf (options "extender") h s)
     /\ trace (run "webproxy")
       = trace (downloadWebProxyPreConf (options "webproxy") h s)
     /\ trace (run "carrier")
       = trace (downloadCarrierPreConf (options "carrier") h s))
    /\ (forall hd s1,
          h _ (ExtenderConfigDownloadHandle cid) s = (Ok hd, s1) ->
          trace (run "extender")
          = [Ev (ExtenderConfigDownloadHandle cid);
             Ev (DownloadExtenderConfig cid
                   (authorizer.SessionID hd) file)])
    /\ (forall hd s1,
          h _ (WebProxySessionDownloadHandle cid) s = (Ok hd, s1) ->
          trace (run "webproxy")
          = [Ev (WebProxySessionDownloadHandle cid);
             Ev (DownloadWebProxyConfig cid
                   (authorizer.SessionID hd) file)])
    /\ (forall hd s1,
          h _ (CarrierConfigDownloadHandle cid) s = (Ok hd, s1) ->
          trace (run "carrier")
          = [Ev (CarrierConfigDownloadHandle cid);
             Ev (DownloadCarrierConfig cid
                   (authorizer.SessionID hd) file)]).
Proof.
  intros St h s cid file run options. subst run options. cbv beta.
  assert (Hsw : forall T,
    Execute preconfigurationDownloadCmd
      [("client-id", cid); ("type", T); ("name", file)] h s
    = preconfigurationDownloadSwitch
        (set_fileName file
           (set_clientType T
              (set_trustedClientID cid trustedClientOptions_zero))) h s)
    by reflexivity.
  rewrite !Hsw.
  assert (Hext := proj1 (preconfigurationDownloadSwitch_trace h s
    (set_fileName file (set_clientType "extender"
       (set_trustedClientID cid trustedClientOptions_zero)))) eq_refl).
  assert (Hweb := proj1 (proj2 (preconfigurationDownloadSwitch_trace h s
    (set_fileName file (set_clientType "webproxy"
       (set_trustedClientID cid trustedClientOptions_zero))))) eq_refl).
  assert (Hcar := proj2 (proj2 (preconfigurationDownloadSwitch_trace h s
    (set_fileName file (set_clientType "carrier"
       (set_trustedClientID cid trustedClientOptions_zero))))) eq_refl).
  split; [now repeat split|]. rewrite Hext, Hweb, Hcar.
  split; [|split]; intros hd s1 E1.
  - destruct (h _ (DownloadExtenderConfig cid (authorizer.SessionID hd)
                     file) s1) as [r s2] eqn:E2.
    now rewrite (proj2 (downloadExtenderPreConf_two_step h s
                   (set_fileName file (set_clientType "extender"
                      (set_trustedClientID cid trustedClientOptions_zero))))
                   hd s1 r s2 E1 E2).
  - destruct (h _ (DownloadWebProxyConfig cid (authorizer.SessionID hd)
                     file) s1) as [r s2] eqn:E2.
    now rewrite (proj2 (downloadWebProxyPreConf_two_step h s
                   (set_fileName file (set_clientType "webproxy"
                      (set_trustedClientID cid trustedClientOptions_zero))))
                   hd s1 r s2 E1 E2).
  - destruct (h _ (DownloadCarrierConfig cid (authorizer.SessionID hd)
                     file) s1) as [r s2] eqn:E2.
    now rewrite (proj2 (downloadCarrierPreConf_two_step h s
                   (set_fileName file (set_clientType "carrier"
                      (set_trustedClientID cid trustedClientOptions_zero))))
                   hd s1 r s2 E1 E2).
Qed.

Lemma preconfiguration_flags_reach_service_witness :
  trace (Execute preconfigurationDownloadCmd
           [("client-id", "x1"); ("type", "carrier"); ("name", "c.toml")]
           demo [])
  = [Ev (CarrierConfigDownloadHandle "x1");
     Ev (DownloadCarrierConfig "x1" "session-x1" "c.toml")].
Proof.
  apply (proj2 (proj2 (proj2
           (preconfiguration_flags_reach_service _ demo [] "x1" "c.toml")))
           {| authorizer.SessionID := "session-x1" |} []).
  reflexivity.
Defined.

(** ** Every run of the two batch commands *)

Section BatchRuns.
Context {St : Type}.
Variable h : handler St.

Lemma roleDelete_range_runs ids s :
  let run := roleDelete_range ids h s in
  (deletes_ok h ids s (final run)
   /\ value run = None /\ trace run = deleted ids)
  \/ (exists pre b post e s1,
        ids = pre ++ b :: post
        /\ deletes_ok h pre s s1
        /\ h _ (DeleteRole b) s1 = (Some e, final run)
        /\ value run = Some e
        /\ trace run = deleted pre ++ [Ev (DeleteRole b)]).
Proof.
  revert s. induction ids as [|id rest IH]; intros s; cbv zeta.
  - left. split; [constructor|]. split; reflexivity.
  - cbn [roleDelete_range]. rewrite bind_run, call_run.
    destruct (h _ (DeleteRole id) s) as [[e|] s1] eqn:Hdel;
      cbn [value final trace fst snd].
    + right. exists [], id, rest, e, s.
      split; [reflexivity|]. split; [constructor|].
      split; [assumption|]. split; reflexivity.
    + rewrite bind_run, call_run.
      destruct (h _ (Println id) s1) as [[] s2] eqn:Hecho.
      cbn [value final trace fst snd].
      destruct (IH s2)
        as [(Hok & Hv & Ht)
           | (pre & b & post & e & s3 & Hids & Hok & Hb & Hv & Ht)].
      * left. split; [|split].
        -- exact (deletes_cons h id rest s s1 s2 _ Hdel Hecho Hok).
        -- assumption.
        -- now rewrite Ht.
      * right. exists (id :: pre), b, post, e, s3.
        split; [now rewrite Hids|]. split.
        -- exact (deletes_cons h id pre s s1 s2 s3 Hdel Hecho Hok).
        -- split; [assumption|]. split; [assumption|]. now rewrite Ht.
Qed.

Lemma roleMemberList_range_runs roles members s :
  let run := roleMemberList_range roles members h s in
  (exists ms,
      members_ok h roles s ms (final run)
      /\ value run = Ok (members ++ concat ms)
      /\ trace run = map lookup roles)
  \/ (exists pre b post e ms s1,
        roles = pre ++ b :: post
        /\ members_ok h pre s ms s1
        /\ h _ (GetRoleMembers b) s1 = (Err e, final run)
        /\ value run = Err e
        /\ trace run = map lookup (pre ++ [b])).
Proof.
  revert members s.
  induction roles as [|role rest IH]; intros members s; cbv zeta.
  - left. exists []. split; [constructor|]. cbn. now rewrite app_nil_r.
  - cbn [roleMemberList_range]. rewrite bind_run, call_run.
    destruct (h _ (GetRoleMembers role) s) as [[member|e] s1] eqn:Hget;
      cbn [value final trace fst snd].
    + destruct (IH (members ++ member) s1)
        as [(ms & Hok & Hv & Ht)
           | (pre & b & post & e & ms & s2 & Hr & Hok & Hb & Hv & Ht)].
      * left. exists (member :: ms). split; [|split].
        -- exact (members_cons h role rest s s1 _ member ms Hget Hok).
        -- cbn [concat]. now rewrite Hv, app_assoc.
        -- cbn [map]. now rewrite Ht.
      * right. exists (role :: pre), b, post, e, (member :: ms), s2.
        split; [now rewrite Hr|]. split.
        -- exact (members_cons h role pre s s1 s2 member ms Hget Hok).
        -- split; [assumption|]. split; [assumption|]. now rewrite Ht.
    + right. exists [], role, rest, e, [], s.
      split; [reflexivity|]. split; [constructor|].
      split; [assumption|]. split; reflexivity.
Qed.

End BatchRuns.

(** X8: whatever the service does, a run of roles delete is of one of
    two kinds.  Either the service accepted the deletion of every ID, in
    order, each was echoed, and the command returns nil; or the IDs
    split into [pre], [b] and [post], the service accepted the deletions
    of [pre], which were echoed, it refused that of [b] with [e], that
    request was the last call, and the command returns [e].  So no ID is
    requested twice or out of turn, none is skipped, nothing follows a
    refused request, and nil is returned only when every deletion was
    accepted. *)
Theorem roleDelete_runs :
  forall St (h : handler St) (s : St) (options : roleOptions),
    let ids := strings.Split (roleID options) "," in
    let run := roleDelete options h s in
    (deletes_ok h ids s (final run)
     /\ value run = None /\ trace run = deleted ids)
    \/ (exists pre b post e s1,
          ids = pre ++ b :: post
          /\ deletes_ok h pre s s1
          /\ h _ (DeleteRole b) s1 = (Some e, final run)
          /\ value run = Some e
          /\ trace run = deleted pre ++ [Ev (DeleteRole b)]).
Proof.
  intros St h s options. apply roleDelete_range_runs.
Qed.

(** X9: whatever the service does, roles members prints at most once,
    and only after the lookup has succeeded for every ID: then it prints
    the concatenation of the member sequences the service returned, and
    returns what printing returned.  If a lookup fails, the lookups
    before it had succeeded, the failed one is the last call, its error
    is returned, and the members collected up to then are not
    printed. *)
Theorem roleMemberList_runs :
  forall St (h : handler St) (s : St) (options : roleOptions),
    let roles := strings.Split (roleID options) "," in
    let run := roleMemberList options h s in
    (exists ms s1,
        members_ok h roles s ms s1
        /\ run =
           {| value := fst (h _ (stdout (VUsers (concat ms))) s1);
              final := snd (h _ (stdout (VUsers (concat ms))) s1);
              trace := map lookup roles
                       ++ [Ev (stdout (VUsers (concat ms)))] |})
    \/ (exists pre b post e ms s1,
          roles = pre ++ b :: post
          /\ members_ok h pre s ms s1
          /\ h _ (GetRoleMembers b) s1 = (Err e, final run)
          /\ value run = Some e
          /\ trace run = map lookup (pre ++ [b])).
Proof.
  intros St h s options roles run. subst roles run.
  unfold roleMemberList. rewrite bind_run.
  destruct (roleMemberList_range_runs h
              (strings.Split (roleID options) ",") [] s)
    as [(ms & Hok & Hv & Ht)
       | (pre & b & post & e & ms & s1 & Hr & Hok & Hb & Hv & Ht)].
  - left. exists ms. eexists. split; [exact Hok|].
    rewrite Hv, Ht. cbn [app]. now rewrite call_run.
  - right. exists pre, b, post, e, ms, s1.
    split; [assumption|]. split; [assumption|].
    rewrite Hv, Ht, ret_run. cbn [value final trace].
    split; [assumption|]. split; [reflexivity | apply app_nil_r].
Qed.

(** ** The IDs of a batch *)

Lemma Split1_clean (e : string) (sep : ascii) :
  strings.ContainsByte e sep = false -> strings.Split1 e sep = [e].
Proof.
  induction e as [|c r IH]; cbn; [reflexivity|].
  destruct (Ascii.eqb c sep); [discriminate|].
  intros Hr. now rewrite (IH Hr).
Qed.

Lemma Split1_piece (e r : string) (sep : ascii) :
  strings.ContainsByte e sep = false ->
  strings.Split1 (e ++ String sep r) sep = e :: strings.Split1 r sep.
Proof.
  induction e as [|c e' IH]; cbn.
  - now rewrite Ascii.eqb_refl.
  - destruct (Ascii.eqb c sep); [discriminate|].
    intros He. now rewrite (IH He).
Qed.

Lemma Split_Join (l : list string) (sep : ascii) :
  l <> [] ->
  Forall (fun e => strings.ContainsByte e sep = false) l ->
  strings.Split (strings.Join l sep) sep = l.
Proof.
  unfold strings.Split.
  induction l as [|e rest IH]; [congruence|].
  intros _ Hclean. inversion Hclean as [|? ? He Hrest]; subst.
  destruct rest as [|e2 rest].
  - cbn. now apply Split1_clean.
  - cbn [strings.Join]. rewrite (Split1_piece _ _ _ He).
    f_equal. apply IH; [discriminate | assumption].
Qed.

Lemma Split_length (s : string) (sep : ascii) :
  length (strings.Split s sep) = S (countByte s sep).
Proof.
  unfold strings.Split, countByte.
  induction s as [|c r IH]; cbn; [reflexivity|].
  rewrite (Ascii.eqb_sym sep c).
  destruct (Ascii.eqb c sep).
  - cbn. now rewrite IH.
  - pose proof (Split_nonempty r sep) as Hne. unfold strings.Split in Hne.
    destruct (strings.Split1 r sep) as [|p ps]; [congruence|].
    exact IH.
Qed.

(** X10: the IDs a batch command works on are exactly the pieces between the
    commas of [--id], empty pieces included: a value with [n] commas
    gives [n + 1] IDs, and for any non-empty list of comma-free IDs,
    joining them with commas gives a value that is split into that list
    again.  So when the service accepts each deletion, roles delete given
    the joined value deletes and echoes exactly those IDs. *)
Theorem batch_ids_are_the_pieces :
  (forall v, length (strings.Split v ",") = S (countByte v ","))
  /\ (forall ids,
        ids <> [] ->
        Forall (fun id => strings.ContainsByte id "," = false) ids ->
        strings.Split (strings.Join ids ",") "," = ids
        /\ forall St (h : handler St) (s s1 : St),
            deletes_ok h ids s s1 ->
            roleDelete (set_roleID (strings.Join ids ",") roleOptions_zero)
              h s
            = {| value := None; final := s1; trace := deleted ids |}).
Proof.
  split.
  - intros v. apply Split_length.
  - intros ids Hne Hclean.
    pose proof (Split_Join ids "," Hne Hclean) as Hsplit.
    split; [assumption|].
    intros St h s s1 Hok. unfold roleDelete.
    cbn [roleID set_roleID]. rewrite Hsplit.
    now apply roleDelete_range_all.
Qed.

(** [--id "a,,c"] holds an empty ID between the commas; it is sent to
    the service like any other (and refused by this one). *)
Lemma batch_ids_are_the_pieces_witness :
  strings.Split (strings.Join ["a"; ""; "c"] ",") "," = ["a"; ""; "c"]
  /\ roleDelete (set_roleID (strings.Join ["c"; "a"] ",") roleOptions_zero)
       demo ["a"; "c"]
     = {| value := None; final := []; trace := deleted ["c"; "a"] |}.
Proof.
  destruct batch_ids_are_the_pieces as [_ Hjoin].
  split.
  - apply (Hjoin ["a"; ""; "c"]); [discriminate|].
    repeat constructor.
  - apply (Hjoin ["c"; "a"]); [discriminate | repeat constructor |].
    apply (deletes_cons demo "c" ["a"] ["a"; "c"] ["a"] ["a"] []);
      [reflexivity | reflexivity |].
    apply (deletes_cons demo "a" [] ["a"] [] [] []);
      [reflexivity | reflexivity | apply deletes_nil].
Defined.

(** ** The remaining commands of cmd/roles.go *)

Lemma admin_call_run {St R} (c : RoleAdmin.Op R)
  (h : RoleAdmin.handler St) (s : St) :
  RoleAdmin.call c h s =
    {| RoleAdmin.value := fst (h R c s);
       RoleAdmin.final := snd (h R c s);
       RoleAdmin.trace := [RoleAdmin.Ev c] |}.
Proof. unfold RoleAdmin.call. now destruct (h R c s). Qed.

Lemma admin_bind_run {St A B} (m : RoleAdmin.M St A)
  (k : A -> RoleAdmin.M St B) h s :
  RoleAdmin.bind m k h s =
    {| RoleAdmin.value :=
         RoleAdmin.value
           (k (RoleAdmin.value (m h s)) h (RoleAdmin.final (m h s)));
       RoleAdmin.final :=
         RoleAdmin.final
           (k (RoleAdmin.value (m h s)) h (RoleAdmin.final (m h s)));
       RoleAdmin.trace :=
         RoleAdmin.trace (m h s)
         ++ RoleAdmin.trace
              (k (RoleAdmin.value (m h s)) h (RoleAdmin.final (m h s))) |}.
Proof. reflexivity. Qed.

Ltac admin_run :=
  repeat (rewrite ?admin_bind_run, ?admin_call_run;
          cbn [RoleAdmin.value RoleAdmin.final RoleAdmin.trace
               RoleAdmin.ret fst snd app]).

(** X11: roles resolve sends all the names in one request, however many
    there are (at least one: an empty [--name] resolves the name [""]);
    the names are the pieces between the commas, in order.  If the
    request fails its error is returned and nothing is printed;
    otherwise the answer is printed, once. *)
Theorem roleResolve_single_request :
  forall St (h : RoleAdmin.handler St) (s : St) (options : roleOptions),
    let names := strings.Split (roleName options) "," in
    let run := RoleAdmin.roleResolve options h s in
    1 <= length names
    /\ RoleAdmin.remote_calls (RoleAdmin.trace run)
       = [RoleAdmin.Ev (RoleAdmin.ResolveRoles names)]
    /\ (forall e s1,
          h _ (RoleAdmin.ResolveRoles names) s = (Err e, s1) ->
          run = {| RoleAdmin.value := Some e; RoleAdmin.final := s1;
                   RoleAdmin.trace :=
                     [RoleAdmin.Ev (RoleAdmin.ResolveRoles names)] |})
    /\ (forall refs s1,
          h _ (RoleAdmin.ResolveRoles names) s = (Ok refs, s1) ->
          RoleAdmin.trace run
          = [RoleAdmin.Ev (RoleAdmin.ResolveRoles names);
             RoleAdmin.Ev (RoleAdmin.stdout (RoleAdmin.VRefs refs))]).
Proof.
  intros St h s options names run. subst names run.
  split; [|split; [|split]].
  - pose proof (Split_nonempty (roleName options) ",") as Hne.
    destruct (strings.Split (roleName options) ","); [congruence|cbn; lia].
  - unfold RoleAdmin.roleResolve. admin_run.
    destruct (fst (h _ (RoleAdmin.ResolveRoles _) s)); admin_run;
      reflexivity.
  - intros e s1 E. unfold RoleAdmin.roleResolve. admin_run.
    now rewrite E.
  - intros refs s1 E. unfold RoleAdmin.roleResolve. admin_run.
    rewrite E. now admin_run.
Qed.

Lemma roleResolve_single_request_witness :
  RoleAdmin.trace
    (RoleAdmin.roleResolve (RoleAdmin.set_roleName "admin,dev,ops"
                              roleOptions_zero) RoleAdmin.store 0)
  = [RoleAdmin.Ev (RoleAdmin.ResolveRoles ["admin"; "dev"; "ops"]);
     RoleAdmin.Ev (RoleAdmin.stdout (RoleAdmin.VRefs
       [ {| sdk.RefID := "id-admin"; sdk.RefName := "admin" |};
         {| sdk.RefID := "id-dev"; sdk.RefName := "dev" |};
         {| sdk.RefID := "id-ops"; sdk.RefName := "ops" |} ]))].
Proof.
  pose proof (roleResolve_single_request _ RoleAdmin.store 0
                (RoleAdmin.set_roleName "admin,dev,ops" roleOptions_zero))
    as H.
  cbv zeta in H. destruct H as (_ & _ & _ & Hok).
  apply (Hok _ 0). reflexivity.
Defined.

(** X12: roles create and roles update read the role from the file named by
    their first argument before they contact the service.  If the file
    cannot be decoded, that error is returned and no request is made.
    Otherwise the decoded role is what is sent: create prints the ID it
    gets back; update sends the role under the ID of [--id], prints
    nothing, and returns what the service returned. *)
Theorem role_file_decoded_first :
  forall St (h : RoleAdmin.handler St) (s : St)
         (file : string) (rest : list string) (options : roleOptions),
    let create := RoleAdmin.roleCreate (file :: rest) h s in
    let update := RoleAdmin.roleUpdate options (file :: rest) h s in
    (forall e s1,
        h _ (RoleAdmin.decodeJSON file) s = (Err e, s1) ->
        let failed :=
          {| RoleAdmin.value := RoleAdmin.Return (Some e);
             RoleAdmin.final := s1;
             RoleAdmin.trace := [RoleAdmin.Ev (RoleAdmin.decodeJSON file)] |}
        in create = failed /\ update = failed)
    /\ (forall role s1,
        h _ (RoleAdmin.decodeJSON file) s = (Ok role, s1) ->
        RoleAdmin.remote_calls (RoleAdmin.trace create)
        = [RoleAdmin.Ev (RoleAdmin.CreateRole role)]
        /\ (forall id s2,
              h _ (RoleAdmin.CreateRole role) s1 = (Ok id, s2) ->
              RoleAdmin.trace create
              = [RoleAdmin.Ev (RoleAdmin.decodeJSON file);
                 RoleAdmin.Ev (RoleAdmin.CreateRole role);
                 RoleAdmin.Ev (RoleAdmin.stdout (RoleAdmin.VID id))])
        /\ update =
           {| RoleAdmin.value :=
                RoleAdmin.Return
                  (fst (h _ (RoleAdmin.UpdateRole (roleID options) role) s1));
              RoleAdmin.final :=
                snd (h _ (RoleAdmin.UpdateRole (roleID options) role) s1);
              RoleAdmin.trace :=
                [RoleAdmin.Ev (RoleAdmin.decodeJSON file);
                 RoleAdmin.Ev
                   (RoleAdmin.UpdateRole (roleID options) role)] |}).
Proof.
  intros St h s file rest options create update. subst create update.
  split.
  - intros e s1 E failed. subst failed.
    unfold RoleAdmin.roleCreate, RoleAdmin.roleUpdate. admin_run.
    rewrite E. split; reflexivity.
  - intros role s1 E. split; [|split].
    + unfold RoleAdmin.roleCreate. admin_run. rewrite E. admin_run.
      destruct (fst (h _ (RoleAdmin.CreateRole role) s1)).
      * unfold RoleAdmin.returning. admin_run. reflexivity.
      * reflexivity.
    + intros id s2 E2.
      unfold RoleAdmin.roleCreate. admin_run. rewrite E. admin_run.
      rewrite E2. unfold RoleAdmin.returning. admin_run. reflexivity.
    + unfold RoleAdmin.roleUpdate. admin_run. rewrite E. admin_run.
      destruct (fst (h _ (RoleAdmin.UpdateRole _ role) s1)); reflexivity.
Qed.

Lemma role_file_decoded_first_witness :
  RoleAdmin.roleCreate ["missing.json"] RoleAdmin.store 0
  = {| RoleAdmin.value := RoleAdmin.Return (Some (Errorf "no such file"));
       RoleAdmin.final := 0;
       RoleAdmin.trace :=
         [RoleAdmin.Ev (RoleAdmin.decodeJSON "missing.json")] |}
  /\ RoleAdmin.roleUpdate (set_roleID "r1" roleOptions_zero) ["role.json"]
       RoleAdmin.store 0
  = {| RoleAdmin.value := RoleAdmin.Return None;
       RoleAdmin.final := 0;
       RoleAdmin.trace :=
         [RoleAdmin.Ev (RoleAdmin.decodeJSON "role.json");
          RoleAdmin.Ev (RoleAdmin.UpdateRole "r1" RoleAdmin.admin)] |}.
Proof.
  split.
  - apply (proj1 (role_file_decoded_first _ RoleAdmin.store 0
             "missing.json" [] roleOptions_zero)
             (Errorf "no such file") 0).
    reflexivity.
  - apply (proj2 (role_file_decoded_first _ RoleAdmin.store 0
             "role.json" [] (set_roleID "r1" roleOptions_zero))
             RoleAdmin.admin 0).
    reflexivity.
Defined.

Lemma returning_run {St} (m : RoleAdmin.M St (option error)) h s :
  RoleAdmin.returning m h s =
    {| RoleAdmin.value := RoleAdmin.Return (RoleAdmin.value (m h s));
       RoleAdmin.final := RoleAdmin.final (m h s);
       RoleAdmin.trace := RoleAdmin.trace (m h s) |}.
Proof.
  unfold RoleAdmin.returning. rewrite admin_bind_run.
  cbn [RoleAdmin.value RoleAdmin.final RoleAdmin.trace RoleAdmin.ret].
  now rewrite app_nil_r.
Qed.

Section AdminRuns.
Context {St : Type}.
Variables (h : RoleAdmin.handler St) (s : St).

Lemma roleCreate_returns file rest :
  RoleAdmin.value (RoleAdmin.roleCreate (file :: rest) h s)
  <> RoleAdmin.Panic.
Proof.
  unfold RoleAdmin.roleCreate. admin_run.
  destruct (fst (h _ (RoleAdmin.decodeJSON file) s)) as [role|e];
    [|discriminate].
  admin_run.
  destruct (fst (h _ (RoleAdmin.CreateRole role) _)) as [id|e];
    [|discriminate].
  cbv iota. rewrite returning_run. discriminate.
Qed.

Lemma roleUpdate_returns options file rest :
  RoleAdmin.value (RoleAdmin.roleUpdate options (file :: rest) h s)
  <> RoleAdmin.Panic.
Proof.
  unfold RoleAdmin.roleUpdate. admin_run.
  destruct (fst (h _ (RoleAdmin.decodeJSON file) s)) as [role|e];
    [|discriminate].
  admin_run.
  destruct (fst (h _ (RoleAdmin.UpdateRole _ role) _)); discriminate.
Qed.

Lemma Execute_wrong_args {O} (cmd : RoleAdmin.Command St O) argv args n :
  RoleAdmin.Args cmd = Some n ->
  length args <> n ->
  RoleAdmin.quiet s (RoleAdmin.Execute cmd argv args h s).
Proof.
  intros Hcheck Hlen. unfold RoleAdmin.Execute, RoleAdmin.quiet.
  destruct (RoleAdmin.parseFlags _ argv _) as [o|e].
  - unfold RoleAdmin.argsAccepted. rewrite Hcheck.
    apply Nat.eqb_neq in Hlen. rewrite Hlen. cbn. eauto.
  - cbn. eauto.
Qed.

Lemma Execute_exact_arg {O} (cmd : RoleAdmin.Command St O) argv args :
  RoleAdmin.Args cmd = Some 1 ->
  (forall o file,
      RoleAdmin.value (RoleAdmin.RunE cmd o [file] h s) <> RoleAdmin.Panic) ->
  RoleAdmin.value (RoleAdmin.Execute cmd argv args h s) <> RoleAdmin.Panic.
Proof.
  intros Hcheck Hrun. unfold RoleAdmin.Execute.
  destruct (RoleAdmin.parseFlags _ argv _) as [o|e]; [|discriminate].
  unfold RoleAdmin.argsAccepted. rewrite Hcheck.
  destruct args as [|file [|more rest]]; cbn [length Nat.eqb];
    try discriminate.
  destruct (missingFlags _ argv); [apply Hrun | discriminate].
Qed.

End AdminRuns.

(** X13: taken alone, [roleCreate] and [roleUpdate] index their first
    argument and panic when there is none.  As commands they never do:
    both are declared with [ExactArgs(1)], so [RunE] is reached with
    exactly one positional argument or not at all.  A command line with
    no positional argument, or with more than one, that does not ask
    for the help text ([--help], [-h]) ends in an error before the file
    is read or the service contacted. *)
Theorem role_file_argument_guarded :
  forall St (h : RoleAdmin.handler St) (s : St)
         (argv : list (string * string)) (args : list string)
         (options : roleOptions),
    RoleAdmin.value (RoleAdmin.roleCreate [] h s) = RoleAdmin.Panic
    /\ RoleAdmin.value (RoleAdmin.roleUpdate options [] h s) = RoleAdmin.Panic
    /\ RoleAdmin.value
         (RoleAdmin.Execute RoleAdmin.roleCreateCmd argv args h s)
       <> RoleAdmin.Panic
    /\ RoleAdmin.value
         (RoleAdmin.Execute RoleAdmin.roleUpdateCmd argv args h s)
       <> RoleAdmin.Panic
    /\ (length args <> 1 ->
        ~ In "help" (map fst argv) ->
        ~ In "h" (map fst argv) ->
        RoleAdmin.quiet s
          (RoleAdmin.Execute RoleAdmin.roleCreateCmd argv args h s)
        /\ RoleAdmin.quiet s
          (RoleAdmin.Execute RoleAdmin.roleUpdateCmd argv args h s)).
Proof.
  intros St h s argv args options.
  split; [reflexivity|]. split; [reflexivity|].
  split; [|split].
  - apply Execute_exact_arg; [reflexivity|].
    intros o file. apply roleCreate_returns.
  - apply Execute_exact_arg; [reflexivity|].
    intros o file. apply roleUpdate_returns.
  - intros Hlen _ _. split.
    + now apply (Execute_wrong_args h s RoleAdmin.roleCreateCmd argv args 1).
    + now apply (Execute_wrong_args h s RoleAdmin.roleUpdateCmd argv args 1).
Qed.

Lemma role_file_argument_guarded_witness :
  RoleAdmin.quiet 0
    (RoleAdmin.Execute RoleAdmin.roleCreateCmd [] [] RoleAdmin.store 0)
  /\ RoleAdmin.quiet 0
    (RoleAdmin.Execute RoleAdmin.roleUpdateCmd [("id", "r1")]
       ["a.json"; "b.json"] RoleAdmin.store 0).
Proof.
  split.
  - apply (role_file_argument_guarded _ RoleAdmin.store 0 [] []
             roleOptions_zero).
    + discriminate.
    + intros [].
    + intros [].
  - apply (role_file_argument_guarded _ RoleAdmin.store 0 [("id", "r1")]
             ["a.json"; "b.json"] roleOptions_zero).
    + discriminate.
    + cbn. intros [H|[]]. discriminate.
    + cbn. intros [H|[]]. discriminate.
Defined.

(** X14: roles aws-token asks for a token with the role of [--id], the code
    of [--mfa] and the lifetime of [--ttl].  Without [--mfa] the code is
    empty, without [--ttl] the lifetime is 50.  A [--ttl] that is not a
    number ends the command before any request.  A refusal of the
    service (the 403 of a missing MFA code, say) is returned as it is
    and nothing is printed; a token is printed. *)
Theorem awsToken_request :
  forall St (h : RoleAdmin.handler St) (s : St)
         (ParseInt : string -> option Z) (id code v : string),
    let cmd := RoleAdmin.awsTokenShowCmd ParseInt in
    let asked (c : string) (n : Z) :=
      {| RoleAdmin.value :=
           RoleAdmin.Return
             (match fst (h _ (RoleAdmin.AWSToken id c n) s) with
              | Err e => Some e
              | Ok t =>
                  fst (h _ (RoleAdmin.stdout (RoleAdmin.VToken t))
                         (snd (h _ (RoleAdmin.AWSToken id c n) s)))
              end);
         RoleAdmin.final :=
           match fst (h _ (RoleAdmin.AWSToken id c n) s) with
           | Err e => snd (h _ (RoleAdmin.AWSToken id c n) s)
           | Ok t =>
               snd (h _ (RoleAdmin.stdout (RoleAdmin.VToken t))
                      (snd (h _ (RoleAdmin.AWSToken id c n) s)))
           end;
         RoleAdmin.trace :=
           RoleAdmin.Ev (RoleAdmin.AWSToken id c n)
           :: match fst (h _ (RoleAdmin.AWSToken id c n) s) with
              | Err e => []
              | Ok t => [RoleAdmin.Ev (RoleAdmin.stdout (RoleAdmin.VToken t))]
              end |} in
    RoleAdmin.Execute cmd [("id", id)] [] h s = asked "" 50%Z
    /\ RoleAdmin.Execute cmd [("id", id); ("mfa", code)] [] h s
       = asked code 50%Z
    /\ (forall n,
          ParseInt v = Some n ->
          RoleAdmin.Execute cmd [("id", id); ("mfa", code); ("ttl", v)] [] h s
          = asked code n)
    /\ (ParseInt v = None ->
          RoleAdmin.quiet s
            (RoleAdmin.Execute cmd [("id", id); ("ttl", v)] [] h s)).
Proof.
  intros St h s ParseInt id code v cmd asked. subst cmd asked.
  assert (Hshow : forall o,
    RoleAdmin.returning (RoleAdmin.awsTokenShow o) h s =
    {| RoleAdmin.value :=
         RoleAdmin.Return
           (match fst (h _ (RoleAdmin.AWSToken (roleID o) (tokenCode o)
                              (ttl o)) s) with
            | Err e => Some e
            | Ok t =>
                fst (h _ (RoleAdmin.stdout (RoleAdmin.VToken t))
                       (snd (h _ (RoleAdmin.AWSToken (roleID o)
                                    (tokenCode o) (ttl o)) s)))
            end);
       RoleAdmin.final :=
         match fst (h _ (RoleAdmin.AWSToken (roleID o) (tokenCode o)
                            (ttl o)) s) with
         | Err e => snd (h _ (RoleAdmin.AWSToken (roleID o) (tokenCode o)
                               (ttl o)) s)
         | Ok t =>
             snd (h _ (RoleAdmin.stdout (RoleAdmin.VToken t))
                    (snd (h _ (RoleAdmin.AWSToken (roleID o)
                                 (tokenCode o) (ttl o)) s)))
         end;
       RoleAdmin.trace :=
         RoleAdmin.Ev (RoleAdmin.AWSToken (roleID o) (tokenCode o) (ttl o))
         :: match fst (h _ (RoleAdmin.AWSToken (roleID o) (tokenCode o)
                              (ttl o)) s) with
            | Err e => []
            | Ok t => [RoleAdmin.Ev (RoleAdmin.stdout (RoleAdmin.VToken t))]
            end |}).
  { intros o. rewrite returning_run. unfold RoleAdmin.awsTokenShow.
    admin_run.
    destruct (fst (h _ (RoleAdmin.AWSToken _ _ _) s)); admin_run;
      reflexivity. }
  split; [|split; [|split]].
  - exact (Hshow (set_roleID id
                    (RoleAdmin.set_ttl 50%Z roleOptions_zero))).
  - exact (Hshow (RoleAdmin.set_tokenCode code
                    (set_roleID id
                       (RoleAdmin.set_ttl 50%Z roleOptions_zero)))).
  - intros n Hn.
    assert (Hp :
      RoleAdmin.parseFlags
        (RoleAdmin.Flags (@RoleAdmin.awsTokenShowCmd St ParseInt))
        [("id", id); ("mfa", code); ("ttl", v)]
        (RoleAdmin.declared
           (RoleAdmin.Flags (@RoleAdmin.awsTokenShowCmd St ParseInt))
           roleOptions_zero)
      = Ok (RoleAdmin.set_ttl n
              (RoleAdmin.set_tokenCode code
                 (set_roleID id
                    (RoleAdmin.set_ttl 50%Z roleOptions_zero))))).
    { cbn. now rewrite Hn. }
    unfold RoleAdmin.Execute.
    cbn [RoleAdmin.options0 RoleAdmin.awsTokenShowCmd].
    cbn [RoleAdmin.options0 RoleAdmin.awsTokenShowCmd] in Hp.
    rewrite Hp.
    exact (Hshow (RoleAdmin.set_ttl n
                    (RoleAdmin.set_tokenCode code
                       (set_roleID id
                          (RoleAdmin.set_ttl 50%Z roleOptions_zero))))).
  - intros Hn.
    assert (Hp :
      RoleAdmin.parseFlags
        (RoleAdmin.Flags (@RoleAdmin.awsTokenShowCmd St ParseInt))
        [("id", id); ("ttl", v)]
        (RoleAdmin.declared
           (RoleAdmin.Flags (@RoleAdmin.awsTokenShowCmd St ParseInt))
           roleOptions_zero)
      = Err (Errorf "invalid argument for flag --ttl")).
    { cbn. now rewrite Hn. }
    unfold RoleAdmin.Execute, RoleAdmin.quiet.
    cbn [RoleAdmin.options0 RoleAdmin.awsTokenShowCmd].
    cbn [RoleAdmin.options0 RoleAdmin.awsTokenShowCmd] in Hp.
    rewrite Hp. cbn. eauto.
Qed.

Lemma awsToken_request_witness :
  RoleAdmin.Execute (RoleAdmin.awsTokenShowCmd RoleAdmin.decimal)
    [("id", "r1"); ("mfa", "123456"); ("ttl", "900")] [] RoleAdmin.store 0
  = {| RoleAdmin.value := RoleAdmin.Return None; RoleAdmin.final := 0;
       RoleAdmin.trace :=
         [RoleAdmin.Ev (RoleAdmin.AWSToken "r1" "123456" 900%Z);
          RoleAdmin.Ev (RoleAdmin.stdout
                          (RoleAdmin.VToken RoleAdmin.token))] |}
  /\ RoleAdmin.quiet 0
       (RoleAdmin.Execute (RoleAdmin.awsTokenShowCmd RoleAdmin.decimal)
          [("id", "r1"); ("ttl", "soon")] [] RoleAdmin.store 0).
Proof.
  pose proof (awsToken_request _ RoleAdmin.store 0 RoleAdmin.decimal
                "r1" "123456" "900") as H900.
  pose proof (awsToken_request _ RoleAdmin.store 0 RoleAdmin.decimal
                "r1" "123456" "soon") as Hsoon.
  cbv zeta in H900, Hsoon.
  destruct H900 as (_ & _ & Hok & _). destruct Hsoon as (_ & _ & _ & Hbad).
  split.
  - rewrite (Hok 900%Z eq_refl). reflexivity.
  - apply Hbad. reflexivity.
Defined.

(** X15: [roles] lists the roles and [roles show --id X] fetches the role
    [X]; neither looks at positional arguments.  A failure of the
    request is returned as it is and nothing is printed; otherwise what
    was fetched is printed, and the command returns what printing
    returned. *)
Theorem role_queries :
  forall St (h : RoleAdmin.handler St) (s : St)
         (id : string) (args : list string),
    let list := RoleAdmin.Execute RoleAdmin.roleListCmd [] args h s in
    let show :=
      RoleAdmin.Execute RoleAdmin.roleShowCmd [("id", id)] args h s in
    (forall e s1,
        h _ RoleAdmin.Roles s = (Err e, s1) ->
        list = {| RoleAdmin.value := RoleAdmin.Return (Some e);
                  RoleAdmin.final := s1;
                  RoleAdmin.trace := [RoleAdmin.Ev RoleAdmin.Roles] |})
    /\ (forall roles s1,
        h _ RoleAdmin.Roles s = (Ok roles, s1) ->
        let printed := RoleAdmin.stdout (RoleAdmin.VRoles roles) in
        list = {| RoleAdmin.value := RoleAdmin.Return (fst (h _ printed s1));
                  RoleAdmin.final := snd (h _ printed s1);
                  RoleAdmin.trace :=
                    [RoleAdmin.Ev RoleAdmin.Roles; RoleAdmin.Ev printed] |})
    /\ (forall e s1,
        h _ (RoleAdmin.Role id) s = (Err e, s1) ->
        show = {| RoleAdmin.value := RoleAdmin.Return (Some e);
                  RoleAdmin.final := s1;
                  RoleAdmin.trace := [RoleAdmin.Ev (RoleAdmin.Role id)] |})
    /\ (forall role s1,
        h _ (RoleAdmin.Role id) s = (Ok role, s1) ->
        let printed := RoleAdmin.stdout (RoleAdmin.VRole role) in
        show = {| RoleAdmin.value := RoleAdmin.Return (fst (h _ printed s1));
                  RoleAdmin.final := snd (h _ printed s1);
                  RoleAdmin.trace :=
                    [RoleAdmin.Ev (RoleAdmin.Role id);
                     RoleAdmin.Ev printed] |}).
Proof.
  intros St h s id args list show. subst list show.
  change (RoleAdmin.Execute RoleAdmin.roleListCmd [] args h s)
    with (RoleAdmin.returning RoleAdmin.roleList h s).
  change (RoleAdmin.Execute RoleAdmin.roleShowCmd [("id", id)] args h s)
    with (RoleAdmin.returning
            (RoleAdmin.roleShow (set_roleID id roleOptions_zero)) h s).
  rewrite !returning_run.
  unfold RoleAdmin.roleList, RoleAdmin.roleShow.
  cbn [roleID set_roleID].
  split; [|split; [|split]].
  - intros e s1 E. admin_run. now rewrite E.
  - intros roles s1 E. cbv zeta. admin_run. rewrite E.
    now admin_run.
  - intros e s1 E. admin_run. now rewrite E.
  - intros role s1 E. cbv zeta. admin_run. rewrite E.
    now admin_run.
Qed.

Lemma role_queries_witness :
  RoleAdmin.Execute RoleAdmin.roleShowCmd [("id", "r7")] ["extra"]
    RoleAdmin.store 0
  = {| RoleAdmin.value := RoleAdmin.Return (Some notFound);
       RoleAdmin.final := 0;
       RoleAdmin.trace := [RoleAdmin.Ev (RoleAdmin.Role "r7")] |}
  /\ RoleAdmin.Execute RoleAdmin.roleListCmd [] [] RoleAdmin.store 0
  = {| RoleAdmin.value := RoleAdmin.Return None;
       RoleAdmin.final := 0;
       RoleAdmin.trace :=
         [RoleAdmin.Ev RoleAdmin.Roles;
          RoleAdmin.Ev (RoleAdmin.stdout
                          (RoleAdmin.VRoles [RoleAdmin.admin]))] |}.
Proof.
  pose proof (role_queries _ RoleAdmin.store 0 "r7" ["extra"]) as Hshow.
  pose proof (role_queries _ RoleAdmin.store 0 "r7" []) as Hlist.
  cbv zeta in Hshow, Hlist.
  destruct Hshow as (_ & _ & Hshow & _). destruct Hlist as (_ & Hlist & _).
  split.
  - apply (Hshow notFound 0). reflexivity.
  - apply (Hlist [RoleAdmin.admin] 0). reflexivity.
Defined.
